(** * Presence and delivery core of the chat relay (server.js)

    A shallow embedding of the socket.io part of [server.js]: the
    [onlineUsers] map, the five socket handlers, and the completion
    callbacks of the two [db.run] INSERT statements.

    The process is single threaded: every handler runs to completion, and
    the only suspension point is between a [db.run] call and its callback.
    The model is therefore an event machine.  An event is either a socket
    event handed to a handler, or the completion of one in-flight
    [db.run]; the store decides whether that statement succeeded. *)

From Stdlib Require Import ZArith List String Bool Arith Lia DecimalString.
From Stdlib Require Import Permutation.
From Stdlib Require QArith.
Import ListNotations.
Local Open Scope list_scope.

(** ** JavaScript values carried by client events

    Ids, bodies and timestamps arrive as JSON scalars.  A property that is
    absent from the event object reads as [VUndef].  Numbers are the
    integers (ids and epoch timestamps). *)

Inductive value : Type :=
| VUndef
| VNull
| VNum (n : Z)
| VStr (s : string).

(** SameValueZero, the key comparison of a JS [Map]. *)
Definition value_eqb (a b : value) : bool :=
  match a, b with
  | VUndef, VUndef => true
  | VNull, VNull => true
  | VNum x, VNum y => Z.eqb x y
  | VStr x, VStr y => String.eqb x y
  | _, _ => false
  end.

(** Truthiness of a string: every string but the empty one. *)
Definition nonempty (s : string) : bool :=
  match s with
  | EmptyString => false
  | String _ _ => true
  end.

(** ** The JS [Map] from user id to socket id

    A [Map] iterates in insertion order; [set] on a key that is present
    replaces the value in place, and [delete] removes the entry. *)

Module JsMap.

Definition t : Type := list (value * string).

Definition empty : t := [].

Fixpoint get (k : value) (m : t) : option string :=
  match m with
  | [] => None
  | (k', v') :: rest => if value_eqb k' k then Some v' else get k rest
  end.

Fixpoint set (k : value) (v : string) (m : t) : t :=
  match m with
  | [] => [(k, v)]
  | (k', v') :: rest =>
      if value_eqb k' k then (k', v) :: rest else (k', v') :: set k v rest
  end.

Fixpoint delete (k : value) (m : t) : t :=
  match m with
  | [] => []
  | (k', v') :: rest =>
      if value_eqb k' k then rest else (k', v') :: delete k rest
  end.

Definition entries (m : t) : list (value * string) := m.

Definition keys (m : t) : list value := map fst m.

Definition values (m : t) : list string := map snd m.

(** No key occurs twice: the shape every [Map] has. *)
Definition wf (m : t) : Prop := NoDup (keys m).

End JsMap.

(** ** The event object of [send_message], [send_image] and [typing]

    The handlers read properties of the object the client sent along with
    the event; a property the client left out reads as [VUndef]. *)

Record Data : Type := mkData {
  senderId : value;
  receiverId : value;
  message : value;
  imageData : value;
  timestamp : value
}.

(** What arrives with the event as [data].  [NoObject] is [undefined] or
    [null]: the client emitted the event without an object, and reading a
    property of [data] throws.  Any other value that is not an object (a
    number, a string) reads like an object without these properties, that
    is [Object] of a record of [VUndef]. *)
Inductive Argument : Type :=
| Object (d : Data)
| NoObject.

Coercion Object : Data >-> Argument.

(** ** The [messages] table

    A row keeps the four columns the INSERT statements touch; the columns
    the store fills in by itself ([id], [created_at]) are left out.  The
    schema declares [sender_id] and [receiver_id] INTEGER NOT NULL and
    [message] and [image_data] TEXT, so what a column holds is the bound
    value after the conversion of that column's affinity. *)

Module Db.

(** The storage classes of the store. *)
Inductive cell : Type :=
| Null
| Integer (n : Z)
| Real (q : QArith_base.Q)
| Text (s : string).

(** The two conversions of the store that the affinities need and that
    [server.js] does not show.  [numeric_literal s] is the number that the
    text [s] spells when it is a well-formed integer or real literal, and
    [None] when it is not one.  [numeric_text n] is the text that stands
    for the number [n] in a TEXT column. *)
Class Affinity : Type := {
  numeric_literal : string -> option (Z + QArith_base.Q);
  numeric_text : Z -> string
}.

Record Row : Type := mkRow {
  sender_id : cell;
  receiver_id : cell;
  message : cell;
  image_data : cell
}.

Inductive Statement : Type :=
| InsertMessage (senderId receiverId message : value)
| InsertImage (senderId receiverId imageData : value).

(** The range of an INTEGER cell. *)
Definition int64 (n : Z) : bool :=
  ((- 2 ^ 63 <=? n) && (n <? 2 ^ 63))%Z.

(** The cell that holds a value just as it was sent: a number as INTEGER,
    a string as TEXT. *)
Definition as_sent (v : value) : cell :=
  match v with
  | VUndef => Null
  | VNull => Null
  | VNum n => Integer n
  | VStr s => Text s
  end.

Definition is_null (c : cell) : bool :=
  match c with
  | Null => true
  | _ => false
  end.

Section Columns.

Context `{Affinity}.

(** A value bound to a column of INTEGER affinity.  A parameter that is
    [undefined] is left unbound, which the store reads as NULL.  A number
    stays a number, as an INTEGER when it fits one.  A text that spells a
    number becomes that number; any other text stays text. *)
Definition integer_column (v : value) : cell :=
  match v with
  | VUndef => Null
  | VNull => Null
  | VNum n => if int64 n then Integer n else Real (QArith_base.inject_Z n)
  | VStr s =>
      match numeric_literal s with
      | Some (inl n) => Integer n
      | Some (inr q) => Real q
      | None => Text s
      end
  end.

(** A value bound to a column of TEXT affinity: a number becomes its
    text. *)
Definition text_column (v : value) : cell :=
  match v with
  | VUndef => Null
  | VNull => Null
  | VNum n => Text (numeric_text n)
  | VStr s => Text s
  end.

(** The column a statement does not list takes its default, NULL. *)
Definition row_of (st : Statement) : Row :=
  match st with
  | InsertMessage s r m =>
      mkRow (integer_column s) (integer_column r) (text_column m) Null
  | InsertImage s r i =>
      mkRow (integer_column s) (integer_column r) Null (text_column i)
  end.

(** [sender_id INTEGER NOT NULL], [receiver_id INTEGER NOT NULL]. *)
Definition not_null_ok (r : Row) : bool :=
  negb (is_null (sender_id r)) && negb (is_null (receiver_id r)).

(** [run up st rows]: the outcome of one INSERT.  [up] tells whether the
    store could carry the statement out at all; [None] is the [err] that
    the callback receives. *)
Definition run (up : bool) (st : Statement) (rows : list Row)
  : option (list Row) :=
  if up && not_null_ok (row_of st) then Some (rows ++ [row_of st])
  else None.

End Columns.

End Db.

(** ** What the server sends and prints *)

Inductive Packet : Type :=
| online_users (ids : list value)
| receive_message (senderId message timestamp : value)
| receive_image (senderId imageData timestamp : value)
| user_typing (senderId : value).

Inductive LogLine : Type :=
| NewUserConnected (socket_id : string)
| ErrorSavingMessage
| MessageSavedForOfflineUser (receiverId : value)
| ErrorSavingImage
| ImageSavedForOfflineUser (receiverId : value)
| UserDisconnected (socket_id : string).

(** An exception that leaves a handler; nothing in [server.js] catches
    it. *)
Inductive Exception : Type :=
| TypeError.

Inductive Output : Type :=
| EmitAll (p : Packet)
| EmitTo (room : string) (p : Packet)
| ConsoleLog (l : LogLine)
| Throw (e : Exception).

(** ** Server state *)

(** A [db.run] call whose callback has not run yet: the statement, and the
    [timestamp] its callback closes over.  [ticket] tells in-flight calls
    apart. *)
Record Pending : Type := mkPending {
  ticket : nat;
  stmt : Db.Statement;
  captured_timestamp : value
}.

Record State : Type := mkState {
  onlineUsers : JsMap.t;
  messages : list Db.Row;
  inflight : list Pending;
  next_ticket : nat
}.

Definition init : State := mkState JsMap.empty [] [] 0.

(** ** Handlers: state passing with an output log *)

Definition Handler (A : Type) : Type := State -> A * State * list Output.

Definition ret {A : Type} (a : A) : Handler A := fun s => (a, s, []).

Definition bind {A B : Type} (c : Handler A) (k : A -> Handler B) : Handler B :=
  fun s =>
    match c s with
    | (a, s1, o1) =>
        match k a s1 with
        | (b, s2, o2) => (b, s2, o1 ++ o2)
        end
    end.

Declare Scope handler_scope.
Delimit Scope handler_scope with handler.
Notation "x <- c ;; k" := (bind c (fun x => k))
  (at level 61, c at next level, right associativity) : handler_scope.
Notation "c ;; k" := (bind c (fun _ => k))
  (at level 61, right associativity) : handler_scope.
Open Scope handler_scope.

Definition onlineUsers_get (k : value) : Handler (option string) :=
  fun s => (JsMap.get k (onlineUsers s), s, []).

Definition onlineUsers_set (k : value) (v : string) : Handler unit :=
  fun s =>
    (tt,
     mkState (JsMap.set k v (onlineUsers s)) (messages s) (inflight s)
       (next_ticket s),
     []).

Definition onlineUsers_delete (k : value) : Handler unit :=
  fun s =>
    (tt,
     mkState (JsMap.delete k (onlineUsers s)) (messages s) (inflight s)
       (next_ticket s),
     []).

Definition onlineUsers_entries : Handler (list (value * string)) :=
  fun s => (JsMap.entries (onlineUsers s), s, []).

Definition onlineUsers_keys : Handler (list value) :=
  fun s => (JsMap.keys (onlineUsers s), s, []).

Definition io_emit (p : Packet) : Handler unit :=
  fun s => (tt, s, [EmitAll p]).

Definition io_to_emit (room : string) (p : Packet) : Handler unit :=
  fun s => (tt, s, [EmitTo room p]).

Definition console_log (l : LogLine) : Handler unit :=
  fun s => (tt, s, [ConsoleLog l]).

(** The handler is left by an exception; in the handlers below this
    happens on their first statement, before any effect. *)
Definition throw (e : Exception) : Handler unit :=
  fun s => (tt, s, [Throw e]).

(** [db.run(sql, params, callback)]: the statement is handed to the store
    and the handler goes on; the callback runs at a later [db_done]. *)
Definition db_run (st : Db.Statement) (ts : value) : Handler unit :=
  fun s =>
    (tt,
     mkState (onlineUsers s) (messages s)
       (inflight s ++ [mkPending (next_ticket s) st ts])
       (S (next_ticket s)),
     []).

(** *** [socket.on('user_login', ...)] *)
Definition on_user_login (socket_id : string) (userId : value) : Handler unit :=
  onlineUsers_set userId socket_id ;;
  ks <- onlineUsers_keys ;;
  io_emit (online_users ks).

(** *** [socket.on('send_message', ...)] and its callback *)
Definition on_send_message (data : Argument) : Handler unit :=
  match data with
  | NoObject => throw TypeError
  | Object data =>
      db_run
        (Db.InsertMessage (senderId data) (receiverId data) (message data))
        (timestamp data)
  end.

Definition on_send_image (data : Argument) : Handler unit :=
  match data with
  | NoObject => throw TypeError
  | Object data =>
      db_run
        (Db.InsertImage (senderId data) (receiverId data) (imageData data))
        (timestamp data)
  end.

(** The [if (receiverSocket)] test: an entry was found and its socket id is
    a truthy string. *)
Definition truthy (receiverSocket : option string) : option string :=
  match receiverSocket with
  | Some room => if nonempty room then Some room else None
  | None => None
  end.

(** The callback of either INSERT; [err] is [true] when the store reported
    an error. *)
Definition insert_callback (st : Db.Statement) (ts : value) (err : bool)
  : Handler unit :=
  match st with
  | Db.InsertMessage sender receiver msg =>
      if err then console_log ErrorSavingMessage
      else
        receiverSocket <- onlineUsers_get receiver ;;
        match truthy receiverSocket with
        | Some room => io_to_emit room (receive_message sender msg ts)
        | None => console_log (MessageSavedForOfflineUser receiver)
        end
  | Db.InsertImage sender receiver img =>
      if err then console_log ErrorSavingImage
      else
        receiverSocket <- onlineUsers_get receiver ;;
        match truthy receiverSocket with
        | Some room => io_to_emit room (receive_image sender img ts)
        | None => console_log (ImageSavedForOfflineUser receiver)
        end
  end.

(** *** [socket.on('typing', ...)] *)
Definition on_typing (data : Argument) : Handler unit :=
  match data with
  | NoObject => throw TypeError
  | Object data =>
      receiverSocket <- onlineUsers_get (receiverId data) ;;
      match truthy receiverSocket with
      | Some room => io_to_emit room (user_typing (senderId data))
      | None => ret tt
      end
  end.

(** *** [socket.on('disconnect', ...)]

    The [for ... of onlineUsers.entries()] loop with its [break]: the user
    id of the first entry whose socket id is the one that went away. *)
Fixpoint first_user_of (socket_id : string) (es : list (value * string))
  : option value :=
  match es with
  | [] => None
  | (userId, socketId) :: rest =>
      if String.eqb socketId socket_id then Some userId
      else first_user_of socket_id rest
  end.

Definition on_disconnect (socket_id : string) : Handler unit :=
  es <- onlineUsers_entries ;;
  match first_user_of socket_id es with
  | Some userId => onlineUsers_delete userId
  | None => ret tt
  end ;;
  ks <- onlineUsers_keys ;;
  io_emit (online_users ks) ;;
  console_log (UserDisconnected socket_id).

(** *** [io.on('connection', ...)] *)
Definition on_connection (socket_id : string) : Handler unit :=
  console_log (NewUserConnected socket_id).

(** *** Completion of an in-flight [db.run] *)
Fixpoint take_ticket (t : nat) (ps : list Pending)
  : option (Pending * list Pending) :=
  match ps with
  | [] => None
  | p :: rest =>
      if Nat.eqb (ticket p) t then Some (p, rest)
      else
        match take_ticket t rest with
        | Some (q, rest') => Some (q, p :: rest')
        | None => None
        end
  end.

Definition on_db_done `{Db.Affinity} (t : nat) (up : bool) : Handler unit :=
  fun s =>
    match take_ticket t (inflight s) with
    | None => (tt, s, [])
    | Some (p, rest) =>
        match Db.run up (stmt p) (messages s) with
        | Some rows =>
            insert_callback (stmt p) (captured_timestamp p) false
              (mkState (onlineUsers s) rows rest (next_ticket s))
        | None =>
            insert_callback (stmt p) (captured_timestamp p) true
              (mkState (onlineUsers s) (messages s) rest (next_ticket s))
        end
    end.

(** ** The event machine *)

Inductive Event : Type :=
| connection (socket_id : string)
| user_login (socket_id : string) (userId : value)
| send_message (socket_id : string) (data : Argument)
| send_image (socket_id : string) (data : Argument)
| typing (socket_id : string) (data : Argument)
| disconnect (socket_id : string)
| db_done (t : nat) (up : bool).

Definition handle `{Db.Affinity} (e : Event) : Handler unit :=
  match e with
  | connection sid => on_connection sid
  | user_login sid userId => on_user_login sid userId
  | send_message _ data => on_send_message data
  | send_image _ data => on_send_image data
  | typing _ data => on_typing data
  | disconnect sid => on_disconnect sid
  | db_done t up => on_db_done t up
  end.

Definition step `{Db.Affinity} (s : State) (e : Event) : State :=
  snd (fst (handle e s)).

Definition outputs `{Db.Affinity} (s : State) (e : Event) : list Output :=
  snd (handle e s).

(** Running a list of events: final state and everything sent, printed or
    thrown on the way, oldest first.  Nothing in [server.js] catches a
    [Throw], so on a real server a run ends with the event that throws; the
    lists of events here are not restricted to such runs, and what is
    proved of every list holds of them too. *)
Fixpoint run `{Db.Affinity} (es : list Event) (s : State)
  : State * list Output :=
  match es with
  | [] => (s, [])
  | e :: rest =>
      match run rest (step s e) with
      | (s', o) => (s', outputs s e ++ o)
      end
  end.

Definition final `{Db.Affinity} (es : list Event) (s : State) : State :=
  fst (run es s).

Definition trace `{Db.Affinity} (es : list Event) (s : State)
  : list Output :=
  snd (run es s).

(** ** States the server can be in *)

Inductive reachable `{Db.Affinity} : State -> Prop :=
| reach_init : reachable init
| reach_step : forall s e, reachable s -> reachable (step s e).

(** Every in-flight ticket was handed out before [next_ticket]. *)
Definition tickets_fresh (s : State) : Prop :=
  Forall (fun p => ticket p < next_ticket s) (inflight s).

(** The statement and timestamp an event object turns into. *)
Definition message_stmt (d : Data) : Db.Statement :=
  Db.InsertMessage (senderId d) (receiverId d) (message d).

Definition image_stmt (d : Data) : Db.Statement :=
  Db.InsertImage (senderId d) (receiverId d) (imageData d).

Definition receiver_of (st : Db.Statement) : value :=
  match st with
  | Db.InsertMessage _ r _ => r
  | Db.InsertImage _ r _ => r
  end.

(** The packet the callback of [st] pushes to an online receiver. *)
Definition delivery_of (st : Db.Statement) (ts : value) : Packet :=
  match st with
  | Db.InsertMessage s _ m => receive_message s m ts
  | Db.InsertImage s _ i => receive_image s i ts
  end.

(** What the callback prints when the receiver is not online. *)
Definition offline_note (st : Db.Statement) : LogLine :=
  match st with
  | Db.InsertMessage _ r _ => MessageSavedForOfflineUser r
  | Db.InsertImage _ r _ => ImageSavedForOfflineUser r
  end.

(** What the callback prints when the store reported an error. *)
Definition error_note (st : Db.Statement) : LogLine :=
  match st with
  | Db.InsertMessage _ _ _ => ErrorSavingMessage
  | Db.InsertImage _ _ _ => ErrorSavingImage
  end.

(** Outputs that put a packet on the wire. *)
Definition is_emit (o : Output) : bool :=
  match o with
  | EmitAll _ => true
  | EmitTo _ _ => true
  | ConsoleLog _ => false
  | Throw _ => false
  end.

(** Outputs that are an exception leaving the handler. *)
Definition is_throw (o : Output) : bool :=
  match o with
  | Throw _ => true
  | _ => false
  end.

(** Outputs that arrive at the socket [socket_id]: a broadcast, or a packet
    sent to the room of that socket. *)
Definition reaches (socket_id : string) (o : Output) : bool :=
  match o with
  | EmitAll _ => true
  | EmitTo room _ => String.eqb room socket_id
  | ConsoleLog _ => false
  | Throw _ => false
  end.

(** The real-time delivery packets. *)
Definition is_delivery (p : Packet) : bool :=
  match p with
  | receive_message _ _ _ => true
  | receive_image _ _ _ => true
  | _ => false
  end.

(** [persisted_as p r]: row [r] is the row of the message that packet [p]
    delivers, that is, its columns hold what the store keeps of the sender
    id and the payload in the packet. *)
Definition persisted_as `{Db.Affinity} (p : Packet) (r : Db.Row) : Prop :=
  match p with
  | receive_message s m _ =>
      Db.sender_id r = Db.integer_column s
      /\ Db.message r = Db.text_column m
      /\ Db.image_data r = Db.Null
  | receive_image s i _ =>
      Db.sender_id r = Db.integer_column s
      /\ Db.image_data r = Db.text_column i
      /\ Db.message r = Db.Null
  | _ => False
  end.

Definition is_login_on (socket_id : string) (e : Event) : bool :=
  match e with
  | user_login sid _ => String.eqb sid socket_id
  | _ => false
  end.

(** A login that moves [userId] to a socket other than [socket_id]. *)
Definition rebinds (userId : value) (socket_id : string) (e : Event) : bool :=
  match e with
  | user_login sid u => value_eqb u userId && negb (String.eqb sid socket_id)
  | _ => false
  end.

Definition is_done_of (t : nat) (e : Event) : bool :=
  match e with
  | db_done t' _ => Nat.eqb t' t
  | _ => false
  end.

(** The user id that the packet of an event is meant for: the receiver of a
    typing notice, or the receiver of the statement a [db_done] completes. *)
Definition target_of (s : State) (e : Event) : option value :=
  match e with
  | typing _ (Object d) => Some (receiverId d)
  | db_done t _ =>
      match take_ticket t (inflight s) with
      | Some (p, _) => Some (receiver_of (stmt p))
      | None => None
      end
  | _ => None
  end.

(** ** Bookkeeping over runs *)

(** The statement and timestamp a send event hands to [db.run]. *)
Definition stmt_of_event (e : Event) : option (Db.Statement * value) :=
  match e with
  | send_message _ (Object d) => Some (message_stmt d, timestamp d)
  | send_image _ (Object d) => Some (image_stmt d, timestamp d)
  | _ => None
  end.


(** [sent_in es st ts]: some send event of [es] issued statement [st] with
    timestamp [ts]. *)
Definition sent_in (es : list Event) (st : Db.Statement) (ts : value) : Prop :=
  exists e, In e es /\ stmt_of_event e = Some (st, ts).





(** What the completion of the in-flight statement [p] adds to the table
    and what its callback sends or prints, with [m] as [onlineUsers]. *)
Definition completion `{Db.Affinity} (m : JsMap.t) (p : Pending) (up : bool)
  : list Db.Row * list Output :=
  match Db.run up (stmt p) [] with
  | Some rows =>
      (rows,
       match truthy (JsMap.get (receiver_of (stmt p)) m) with
       | Some room =>
           [EmitTo room (delivery_of (stmt p) (captured_timestamp p))]
       | None => [ConsoleLog (offline_note (stmt p))]
       end)
  | None => ([], [ConsoleLog (error_note (stmt p))])
  end.

(** A stand-in for the conversions of the store, to run the machine on
    examples: it reads decimal integers and writes them. *)
Definition sample_affinity : Db.Affinity := {|
  Db.numeric_literal := fun s =>
    option_map (fun i => inl (Z.of_int i)) (NilZero.int_of_string s);
  Db.numeric_text := fun n => NilZero.string_of_int (Z.to_int n)
|}.

(** ** Sample events

    User 5 writes to user 9: once a text, once an image. *)

Definition hi_from_5_to_9 : Data :=
  mkData (VNum 5) (VNum 9) (VStr "hi") VUndef (VNum 1700000000000).

Definition image_from_5_to_9 : Data :=
  mkData (VNum 5) (VNum 9) VUndef (VStr "data:image/png;base64,AAAA")
    (VNum 1700000000001).

(** User 5 writes to user 9, with its own id as a string and a number as
    the text. *)
Definition text_id_number_body : Data :=
  mkData (VStr "5") (VNum 9) (VNum 42) VUndef (VNum 1700000000004).

(** An event object with neither [message] nor [imageData]. *)
Definition nothing_from_5_to_9 : Data :=
  mkData (VNum 5) (VNum 9) VUndef VUndef (VNum 1700000000002).

(** An event object with both [message] and [imageData]. *)
Definition both_from_5_to_9 : Data :=
  mkData (VNum 5) (VNum 9) (VStr "hi") (VStr "data:image/png;base64,AAAA")
    (VNum 1700000000003).

(** * The HTTP side: accounts

    [POST /register], [POST /login], the admin check that opens every
    [/admin/...] route, [DELETE /admin/user/:adminId/:userId] and the
    seeding of the admin account in [initializeDatabase] all work on the
    [users] table. *)

(** The [!x] test on the values a JSON body carries. *)
Definition falsy (v : value) : bool :=
  match v with
  | VUndef => true
  | VNull => true
  | VNum n => Z.eqb n 0
  | VStr s => negb (nonempty s)
  end.

(** What [server.js] takes from its libraries.  [hashSync salt s] is
    [bcryptjs.hashSync(s, 10)] with the salt it draws, and [compareSync] is
    [bcryptjs.compareSync]; either gives [None] when the call throws.
    [text_of_number] is the text the store keeps when a number goes into a
    TEXT column, and [integer_of_text] the integer a text parameter stands
    for when it is compared with the INTEGER [id] column ([None] when it
    stands for none). *)
Class Libraries : Type := {
  Salt : Type;
  hashSync : Salt -> value -> option string;
  compareSync : value -> string -> option bool;
  text_of_number : Z -> string;
  integer_of_text : string -> option Z
}.

(** ** The [users] table

    [id INTEGER PRIMARY KEY AUTOINCREMENT], [username TEXT UNIQUE NOT NULL],
    [nickname TEXT NOT NULL], [password TEXT NOT NULL], [avatar TEXT],
    [bio TEXT]; [created_at] is left out.  [seq] is the largest id the
    table has ever handed out. *)

Module Users.

Record Row : Type := mkRow {
  id : Z;
  username : string;
  nickname : string;
  password : string;
  avatar : option string;
  bio : option string
}.

Record Table : Type := mkTable {
  rows : list Row;
  seq : Z
}.

Definition empty : Table := mkTable [] 0.

(** AUTOINCREMENT: one more than the largest id in the table or ever
    handed out. *)
Definition next_id (t : Table) : Z :=
  fold_right Z.max (seq t) (map id (rows t)) + 1.

Definition taken (u : string) (t : Table) : bool :=
  existsb (fun r => String.eqb (username r) u) (rows t).

(** [INSERT INTO users (username, nickname, password[, bio])]: [None] is
    the [err] of the callback (a NULL in a NOT NULL column, or a username
    that is taken); otherwise [lastID] and the new table. *)
Definition insert (u n p b : option string) (t : Table) : option (Z * Table) :=
  match u, n, p with
  | Some u, Some n, Some p =>
      if taken u t then None
      else
        Some (next_id t,
              mkTable (rows t ++ [mkRow (next_id t) u n p None b]) (next_id t))
  | _, _, _ => None
  end.

(** [INSERT OR IGNORE INTO users (username, nickname, password, bio)] with
    four texts.  A username that is taken leaves every row as it is, but
    the id that was drawn for the new row is spent: [seq] moves on to
    it. *)
Definition insert_or_ignore (u n p b : string) (t : Table) : Table :=
  if taken u t then mkTable (rows t) (next_id t)
  else
    mkTable (rows t ++ [mkRow (next_id t) u n p None (Some b)]) (next_id t).

(** [SELECT ... FROM users WHERE username = ?] through [db.get]. *)
Definition get_by_username (u : option string) (t : Table) : option Row :=
  match u with
  | Some u => find (fun r => String.eqb (username r) u) (rows t)
  | None => None
  end.

(** [SELECT ... FROM users WHERE id = ?] through [db.get]. *)
Definition get_by_id (i : option Z) (t : Table) : option Row :=
  match i with
  | Some i => find (fun r => Z.eqb (id r) i) (rows t)
  | None => None
  end.

(** [DELETE FROM users WHERE id = ?]. *)
Definition delete_by_id (i : option Z) (t : Table) : Table :=
  match i with
  | Some i => mkTable (filter (fun r => negb (Z.eqb (id r) i)) (rows t)) (seq t)
  | None => t
  end.

(** The statements of [server.js] that write to [users]. *)
Inductive Write : Type :=
| Insert (u n p b : option string)
| InsertOrIgnore (u n p b : string)
| DeleteWhereId (i : option Z).

Definition apply (w : Write) (t : Table) : Table :=
  match w with
  | Insert u n p b =>
      match insert u n p b t with
      | Some (_, t') => t'
      | None => t
      end
  | InsertOrIgnore u n p b => insert_or_ignore u n p b t
  | DeleteWhereId i => delete_by_id i t
  end.

Definition apply_all (ws : list Write) (t : Table) : Table :=
  fold_left (fun t w => apply w t) ws t.

Definition deletes (i : Z) (w : Write) : bool :=
  match w with
  | DeleteWhereId (Some j) => Z.eqb j i
  | _ => false
  end.

Definition inserts_name (name : string) (w : Write) : bool :=
  match w with
  | Insert (Some u) _ _ _ => String.eqb u name
  | InsertOrIgnore u _ _ _ => String.eqb u name
  | _ => false
  end.

(** UNIQUE [username], PRIMARY KEY [id]. *)
Definition wf (t : Table) : Prop :=
  NoDup (map username (rows t)) /\ NoDup (map id (rows t)).

End Users.

(** The fields that [/register] and [/login] read off [req.body]. *)
Module Body.

Record t : Type := mk {
  username : value;
  nickname : value;
  password : value;
  confirmPassword : value
}.

End Body.

(** What a route sends back: [res.status(status).json({success: false,
    message})], one of the success bodies, or nothing of its own because a
    library call threw. *)
Inductive Reply : Type :=
| Failure (status : nat) (message : string)
| RegistrationSuccessful (userId : Z)
| LoginSuccessful (id : Z) (username nickname : string) (isAdmin : bool)
| UserDeleted
| Threw.

Section Routes.

Context `{Libraries}.

(** A body value bound to, or compared with, a TEXT column. *)
Definition sql_text (v : value) : option string :=
  match v with
  | VStr s => Some s
  | VNum n => Some (text_of_number n)
  | _ => None
  end.

(** [app.post('/register', ...)]; [up] tells whether the store could carry
    the INSERT out. *)
Definition post_register (body : Body.t) (salt : Salt) (up : bool)
    (t : Users.Table) : Reply * Users.Table :=
  if falsy (Body.username body) || falsy (Body.nickname body)
     || falsy (Body.password body)
  then (Failure 400 "All fields required", t)
  else if negb (value_eqb (Body.password body) (Body.confirmPassword body))
  then (Failure 400 "Passwords do not match", t)
  else
    match hashSync salt (Body.password body) with
    | None => (Threw, t)
    | Some hashedPassword =>
        match
          (if up
           then Users.insert (sql_text (Body.username body))
                  (sql_text (Body.nickname body)) (Some hashedPassword) None t
           else None)
        with
        | None => (Failure 400 "Username already exists", t)
        | Some (lastID, t') => (RegistrationSuccessful lastID, t')
        end
    end.

(** [app.post('/login', ...)]. *)
Definition post_login (body : Body.t) (up : bool) (t : Users.Table) : Reply :=
  if falsy (Body.username body) || falsy (Body.password body)
  then Failure 400 "Username and password required"
  else if negb up then Failure 500 "Database error"
  else
    match Users.get_by_username (sql_text (Body.username body)) t with
    | None => Failure 401 "User not found"
    | Some user =>
        match compareSync (Body.password body) (Users.password user) with
        | None => Threw
        | Some false => Failure 401 "Invalid password"
        | Some true =>
            LoginSuccessful (Users.id user) (Users.username user)
              (Users.nickname user)
              (String.eqb (Users.username user) "admin")
        end
    end.

(** The check at the head of the three [/admin/...] routes:
    [err || !user || user.username !== 'admin'] answers 403. *)
Definition admin_access (userId : string) (up : bool) (t : Users.Table)
  : bool :=
  if up then
    match Users.get_by_id (integer_of_text userId) t with
    | Some user => String.eqb (Users.username user) "admin"
    | None => false
    end
  else false.

(** [app.delete('/admin/user/:adminId/:userId', ...)]: the check, then the
    DELETE; [up1] and [up2] tell whether the store could carry out the
    SELECT and the DELETE.  Both statements see the table [t]. *)
Definition delete_admin_user (adminId userId : string) (up1 up2 : bool)
    (t : Users.Table) : Reply * Users.Table :=
  if admin_access adminId up1 t then
    if up2 then (UserDeleted, Users.delete_by_id (integer_of_text userId) t)
    else (Failure 500 "Database error", t)
  else (Failure 403 "Admin access required", t).

(** The admin seeding of [initializeDatabase]:
    [INSERT OR IGNORE INTO users (username, nickname, password, bio)]. *)
Definition initializeDatabase (salt : Salt) (up : bool) (t : Users.Table)
  : Users.Table :=
  match hashSync salt (VStr "12345") with
  | None => t
  | Some hashedPassword =>
      if up then
        Users.apply
          (Users.InsertOrIgnore "admin" "Admin User" hashedPassword
             "I am the admin")
          t
      else t
  end.

End Routes.

(** Stand-ins for the libraries, to run the routes on examples: the hash
    is the password behind a marker, numbers are written in decimal. *)
Definition sample_libraries : Libraries := {|
  Salt := unit;
  hashSync := fun _ v =>
    match v with
    | VStr s => Some (String.append "hash:" s)
    | _ => None
    end;
  compareSync := fun v h =>
    match v with
    | VStr s => Some (String.eqb (String.append "hash:" s) h)
    | _ => None
    end;
  text_of_number := fun n => NilZero.string_of_int (Z.to_int n);
  integer_of_text := fun s => option_map Z.of_int (NilZero.int_of_string s)
|}.

Definition alice_body : Body.t :=
  Body.mk (VStr "alice") (VStr "Alice") (VStr "s3cret") (VStr "s3cret").

Definition admin_body : Body.t :=
  Body.mk (VStr "admin") VUndef (VStr "12345") VUndef.

(** The writes that seed the admin account and register alice. *)
Definition seed_and_alice : list Users.Write :=
  [Users.Insert (Some "admin"%string) (Some "Admin User"%string)
     (Some "hash:12345"%string) (Some "I am the admin"%string);
   Users.Insert (Some "alice"%string) (Some "Alice"%string)
     (Some "hash:s3cret"%string) None].

(** * Facts about values and the map *)

Lemma value_eqb_spec (a b : value) : reflect (a = b) (value_eqb a b).
Proof.
  destruct a as [| |x|x], b as [| |y|y]; simpl;
    try (constructor; congruence).
  - destruct (Z.eqb_spec x y); constructor; congruence.
  - destruct (String.eqb_spec x y); constructor; congruence.
Qed.

Lemma value_eqb_refl (a : value) : value_eqb a a = true.
Proof. destruct (value_eqb_spec a a); congruence. Qed.

Lemma value_eqb_neq (a b : value) : a <> b -> value_eqb a b = false.
Proof. destruct (value_eqb_spec a b); congruence. Qed.


Module JsMapFacts.
Import JsMap.

Lemma get_set_same k v m : get k (set k v m) = Some v.
Proof.
  induction m as [|[k' v'] m IH]; simpl.
  - now rewrite value_eqb_refl.
  - destruct (value_eqb_spec k' k); simpl.
    + subst. now rewrite value_eqb_refl.
    + now rewrite value_eqb_neq.
Qed.

Lemma get_set_other k k' v m : k <> k' -> get k' (set k v m) = get k' m.
Proof.
  intros Hne. induction m as [|[k0 v0] m IH]; simpl.
  - now rewrite value_eqb_neq.
  - destruct (value_eqb_spec k0 k); simpl.
    + subst. now rewrite value_eqb_neq.
    + now rewrite IH.
Qed.

Lemma get_delete_other k k' m : k <> k' -> get k' (delete k m) = get k' m.
Proof.
  intros Hne. induction m as [|[k0 v0] m IH]; simpl; auto.
  destruct (value_eqb_spec k0 k); simpl.
  - subst. now rewrite value_eqb_neq.
  - now rewrite IH.
Qed.

Lemma get_None k m : get k m = None <-> ~ In k (keys m).
Proof.
  induction m as [|[k0 v0] m IH]; simpl.
  - tauto.
  - destruct (value_eqb_spec k0 k).
    + split; [discriminate | tauto].
    + rewrite IH. tauto.
Qed.

Lemma get_Some_In k v m : get k m = Some v -> In (k, v) m.
Proof.
  induction m as [|[k0 v0] m IH]; simpl; [discriminate|].
  destruct (value_eqb_spec k0 k).
  - intros [= <-]. subst. now left.
  - auto.
Qed.

Lemma keys_set k v m : In k (keys (set k v m)).
Proof.
  induction m as [|[k0 v0] m IH]; simpl; auto.
  destruct (value_eqb_spec k0 k); simpl; auto.
Qed.

Lemma keys_set_incl k v m x : In x (keys (set k v m)) -> x = k \/ In x (keys m).
Proof.
  induction m as [|[k0 v0] m IH]; simpl.
  - intros [<-|[]]. now left.
  - destruct (value_eqb_spec k0 k); simpl; intros [<-|H]; auto.
    destruct (IH H); auto.
Qed.

Lemma keys_delete_incl k m x : In x (keys (delete k m)) -> In x (keys m).
Proof.
  induction m as [|[k0 v0] m IH]; simpl; auto.
  destruct (value_eqb_spec k0 k); simpl; auto.
  intros [<-|H]; auto.
Qed.

Lemma values_delete_incl k m x :
  In x (values (delete k m)) -> In x (values m).
Proof.
  induction m as [|[k0 v0] m IH]; simpl; auto.
  destruct (value_eqb_spec k0 k); simpl; auto.
  intros [<-|H]; auto.
Qed.

Lemma values_set_incl k v m x :
  In x (values (set k v m)) -> x = v \/ In x (values m).
Proof.
  induction m as [|[k0 v0] m IH]; simpl.
  - intros [<-|[]]. now left.
  - destruct (value_eqb_spec k0 k); simpl; intros [<-|H]; auto.
    destruct (IH H); auto.
Qed.

Lemma wf_empty : wf empty.
Proof. constructor. Qed.

Lemma wf_set k v m : wf m -> wf (set k v m).
Proof.
  unfold wf. induction m as [|[k0 v0] m IH]; simpl; intros Hnd.
  - repeat constructor. simpl. tauto.
  - inversion Hnd as [|? ? Hnot Hrest]; subst.
    destruct (value_eqb_spec k0 k); simpl.
    + now constructor.
    + constructor; auto.
      intros Hin. apply keys_set_incl in Hin. destruct Hin; congruence.
Qed.

Lemma wf_delete k m : wf m -> wf (delete k m).
Proof.
  unfold wf. induction m as [|[k0 v0] m IH]; simpl; intros Hnd; auto.
  inversion Hnd as [|? ? Hnot Hrest]; subst.
  destruct (value_eqb_spec k0 k); simpl; auto.
  constructor; auto.
  intros Hin. now apply keys_delete_incl in Hin.
Qed.

Lemma keys_delete_same k m : wf m -> ~ In k (keys (delete k m)).
Proof.
  unfold wf. induction m as [|[k0 v0] m IH]; simpl; intros Hnd; auto.
  inversion Hnd as [|? ? Hnot Hrest]; subst.
  destruct (value_eqb_spec k0 k); simpl.
  - now subst.
  - intros [?|?]; [congruence | now apply IH].
Qed.

Lemma keys_delete_other k k' m :
  k <> k' -> In k' (keys m) -> In k' (keys (delete k m)).
Proof.
  intros Hne. induction m as [|[k0 v0] m IH]; simpl; auto.
  destruct (value_eqb_spec k0 k); simpl.
  - subst. intros [?|?]; [congruence | assumption].
  - intros [?|?]; auto.
Qed.

Lemma length_delete k m :
  List.length m <= S (List.length (delete k m)).
Proof.
  induction m as [|[k0 v0] m IH]; simpl; auto.
  destruct (value_eqb k0 k); simpl; lia.
Qed.

End JsMapFacts.

Section MachineFacts.

Context `{store : Db.Affinity}.


(** * What each handler does to the state *)

Ltac unfold_handler :=
  unfold step, outputs, handle, on_connection, on_user_login,
    on_send_message, on_send_image, on_typing, on_disconnect, on_db_done,
    insert_callback, bind, ret, onlineUsers_get, onlineUsers_set,
    onlineUsers_delete, onlineUsers_entries, onlineUsers_keys, io_emit,
    io_to_emit, console_log, db_run in *.

Lemma handle_user_login s sid u :
  handle (user_login sid u) s =
  (tt,
   mkState (JsMap.set u sid (onlineUsers s)) (messages s) (inflight s)
     (next_ticket s),
   [EmitAll (online_users (JsMap.keys (JsMap.set u sid (onlineUsers s))))]).
Proof. reflexivity. Qed.



Lemma step_send_message s sid (d : Data) :
  step s (send_message sid d) =
  mkState (onlineUsers s) (messages s)
    (inflight s ++ [mkPending (next_ticket s) (message_stmt d) (timestamp d)])
    (S (next_ticket s)).
Proof. reflexivity. Qed.

Lemma step_send_image s sid (d : Data) :
  step s (send_image sid d) =
  mkState (onlineUsers s) (messages s)
    (inflight s ++ [mkPending (next_ticket s) (image_stmt d) (timestamp d)])
    (S (next_ticket s)).
Proof. reflexivity. Qed.

Lemma handle_typing s sid (d : Data) :
  handle (typing sid d) s =
  (tt, s,
   match truthy (JsMap.get (receiverId d) (onlineUsers s)) with
   | Some room => [EmitTo room (user_typing (senderId d))]
   | None => []
   end).
Proof.
  unfold_handler.
  destruct (truthy (JsMap.get (receiverId d) (onlineUsers s))); reflexivity.
Qed.

Lemma handle_disconnect s sid :
  handle (disconnect sid) s =
  let m :=
    match first_user_of sid (JsMap.entries (onlineUsers s)) with
    | Some userId => JsMap.delete userId (onlineUsers s)
    | None => onlineUsers s
    end in
  (tt,
   mkState m (messages s) (inflight s) (next_ticket s),
   [EmitAll (online_users (JsMap.keys m)); ConsoleLog (UserDisconnected sid)]).
Proof.
  unfold_handler.
  destruct (first_user_of sid (JsMap.entries (onlineUsers s)));
    destruct s; reflexivity.
Qed.

Lemma handle_db_done_unknown s t up :
  take_ticket t (inflight s) = None ->
  handle (db_done t up) s = (tt, s, []).
Proof. intros H. unfold_handler. now rewrite H. Qed.

Lemma handle_db_done_ok s t up p rest rows :
  take_ticket t (inflight s) = Some (p, rest) ->
  Db.run up (stmt p) (messages s) = Some rows ->
  handle (db_done t up) s =
  (tt,
   mkState (onlineUsers s) rows rest (next_ticket s),
   match truthy (JsMap.get (receiver_of (stmt p)) (onlineUsers s)) with
   | Some room => [EmitTo room (delivery_of (stmt p) (captured_timestamp p))]
   | None => [ConsoleLog (offline_note (stmt p))]
   end).
Proof.
  intros Ht Hr. unfold_handler. rewrite Ht, Hr.
  destruct (stmt p) as [a b c|a b c]; simpl;
    destruct (truthy (JsMap.get b (onlineUsers s))); reflexivity.
Qed.

Lemma handle_db_done_err s t up p rest :
  take_ticket t (inflight s) = Some (p, rest) ->
  Db.run up (stmt p) (messages s) = None ->
  handle (db_done t up) s =
  (tt,
   mkState (onlineUsers s) (messages s) rest (next_ticket s),
   [ConsoleLog (error_note (stmt p))]).
Proof.
  intros Ht Hr. unfold_handler. rewrite Ht, Hr.
  destruct (stmt p); reflexivity.
Qed.

(** The three ways a [db_done] can go. *)
Lemma db_done_cases s t up :
  (take_ticket t (inflight s) = None /\ handle (db_done t up) s = (tt, s, []))
  \/ (exists p rest rows,
        take_ticket t (inflight s) = Some (p, rest)
        /\ Db.run up (stmt p) (messages s) = Some rows
        /\ handle (db_done t up) s =
           (tt, mkState (onlineUsers s) rows rest (next_ticket s),
            match truthy (JsMap.get (receiver_of (stmt p)) (onlineUsers s)) with
            | Some room =>
                [EmitTo room (delivery_of (stmt p) (captured_timestamp p))]
            | None => [ConsoleLog (offline_note (stmt p))]
            end))
  \/ (exists p rest,
        take_ticket t (inflight s) = Some (p, rest)
        /\ Db.run up (stmt p) (messages s) = None
        /\ handle (db_done t up) s =
           (tt, mkState (onlineUsers s) (messages s) rest (next_ticket s),
            [ConsoleLog (error_note (stmt p))])).
Proof.
  destruct (take_ticket t (inflight s)) as [[p rest]|] eqn:Ht.
  - destruct (Db.run up (stmt p) (messages s)) as [rows|] eqn:Hr.
    + right; left. exists p, rest, rows. repeat split; auto.
      now apply handle_db_done_ok.
    + right; right. exists p, rest. repeat split; auto.
      now apply handle_db_done_err.
  - left. split; auto. now apply handle_db_done_unknown.
Qed.

Lemma onlineUsers_step s e :
  onlineUsers (step s e) =
  match e with
  | user_login sid u => JsMap.set u sid (onlineUsers s)
  | disconnect sid =>
      match first_user_of sid (JsMap.entries (onlineUsers s)) with
      | Some userId => JsMap.delete userId (onlineUsers s)
      | None => onlineUsers s
      end
  | _ => onlineUsers s
  end.
Proof.
  destruct e as [sid|sid u|sid [d|]|sid [d|]|sid [d|]|sid|t up]; try reflexivity.
  - unfold step. now rewrite handle_typing.
  - unfold step. now rewrite handle_disconnect.
  - unfold step.
    destruct (db_done_cases s t up)
      as [[_ ->]|[(p & rest & rows & _ & _ & ->)|(p & rest & _ & _ & ->)]];
      reflexivity.
Qed.

Lemma inflight_step s e :
  inflight (step s e) =
  match e with
  | send_message _ (Object d) =>
      inflight s ++ [mkPending (next_ticket s) (message_stmt d) (timestamp d)]
  | send_image _ (Object d) =>
      inflight s ++ [mkPending (next_ticket s) (image_stmt d) (timestamp d)]
  | db_done t _ =>
      match take_ticket t (inflight s) with
      | Some (_, rest) => rest
      | None => inflight s
      end
  | _ => inflight s
  end.
Proof.
  destruct e as [sid|sid u|sid [d|]|sid [d|]|sid [d|]|sid|t up]; try reflexivity.
  - unfold step. now rewrite handle_typing.
  - unfold step. now rewrite handle_disconnect.
  - unfold step.
    destruct (db_done_cases s t up)
      as [[E ->]|[(p & rest & rows & E & _ & ->)|(p & rest & E & _ & ->)]];
      rewrite E; reflexivity.
Qed.

Lemma next_ticket_step s e :
  next_ticket (step s e) =
  match e with
  | send_message _ (Object _) => S (next_ticket s)
  | send_image _ (Object _) => S (next_ticket s)
  | _ => next_ticket s
  end.
Proof.
  destruct e as [sid|sid u|sid [d|]|sid [d|]|sid [d|]|sid|t up]; try reflexivity.
  - unfold step. now rewrite handle_typing.
  - unfold step. now rewrite handle_disconnect.
  - unfold step.
    destruct (db_done_cases s t up)
      as [[E ->]|[(p & rest & rows & E & _ & ->)|(p & rest & E & _ & ->)]];
      reflexivity.
Qed.

(** The table only grows, and only at a [db_done]. *)
Lemma messages_step s e :
  exists added, messages (step s e) = messages s ++ added.
Proof.
  destruct e as [sid|sid u|sid [d|]|sid [d|]|sid [d|]|sid|t up];
    try (exists []; simpl; now rewrite app_nil_r).
  - exists []. unfold step. rewrite handle_typing. simpl. now rewrite app_nil_r.
  - exists []. unfold step. rewrite handle_disconnect. simpl.
    now rewrite app_nil_r.
  - unfold step.
    destruct (db_done_cases s t up)
      as [[E ->]|[(p & rest & rows & E & Hr & ->)|(p & rest & E & _ & ->)]];
      simpl; try (exists []; now rewrite app_nil_r).
    unfold Db.run in Hr.
    destruct (up && Db.not_null_ok (Db.row_of (stmt p))); [|discriminate].
    injection Hr as <-. now eexists.
Qed.


Lemma final_cons e es s : final (e :: es) s = final es (step s e).
Proof. unfold final. simpl. now destruct (run es (step s e)). Qed.

Lemma trace_cons e es s :
  trace (e :: es) s = outputs s e ++ trace es (step s e).
Proof. unfold trace. simpl. now destruct (run es (step s e)). Qed.

Lemma reachable_final es s : reachable s -> reachable (final es s).
Proof.
  revert s. induction es as [|e es IH]; intros s Hs; [exact Hs|].
  rewrite final_cons. apply IH. now constructor.
Qed.

(** * Invariants of reachable states *)

Lemma wf_step s e : JsMap.wf (onlineUsers s) -> JsMap.wf (onlineUsers (step s e)).
Proof.
  intros Hwf. rewrite onlineUsers_step.
  destruct e as [sid|sid u|sid [d|]|sid [d|]|sid [d|]|sid|t up]; auto.
  - now apply JsMapFacts.wf_set.
  - destruct (first_user_of sid (JsMap.entries (onlineUsers s))); auto.
    now apply JsMapFacts.wf_delete.
Qed.

Lemma wf_reachable s : reachable s -> JsMap.wf (onlineUsers s).
Proof.
  induction 1 as [|s e _ IH]; [apply JsMapFacts.wf_empty | now apply wf_step].
Qed.

Lemma take_ticket_sub t ps p rest :
  take_ticket t ps = Some (p, rest) ->
  ticket p = t /\ forall q, In q rest -> In q ps.
Proof.
  revert p rest. induction ps as [|a ps IH]; simpl; intros p rest; [discriminate|].
  destruct (Nat.eqb_spec (ticket a) t) as [E|E].
  - intros [= <- <-]. auto.
  - destruct (take_ticket t ps) as [[q r]|]; [|discriminate].
    intros [= <- <-]. destruct (IH q r eq_refl) as [Hq Hin].
    split; auto. simpl. intros x [<-|Hx]; auto.
Qed.

Lemma tickets_fresh_step s e : tickets_fresh s -> tickets_fresh (step s e).
Proof.
  unfold tickets_fresh. intros Hf.
  rewrite inflight_step, next_ticket_step.
  destruct e as [sid|sid u|sid [d|]|sid [d|]|sid [d|]|sid|t up]; auto.
  - apply Forall_app. split.
    + eapply Forall_impl; [|exact Hf]. simpl. intros; lia.
    + repeat constructor.
  - apply Forall_app. split.
    + eapply Forall_impl; [|exact Hf]. simpl. intros; lia.
    + repeat constructor.
  - destruct (take_ticket t (inflight s)) as [[p rest]|] eqn:E; auto.
    apply take_ticket_sub in E. destruct E as [_ Hin].
    rewrite Forall_forall in *. auto.
Qed.

Lemma tickets_fresh_reachable s : reachable s -> tickets_fresh s.
Proof.
  induction 1 as [|s e _ IH]; [constructor | now apply tickets_fresh_step].
Qed.

(** ** An in-flight statement stays in flight until its own [db_done]

    [awaiting p s]: [p] is the first in-flight call with its ticket. *)

Lemma take_ticket_first t p l1 l2 :
  ticket p = t ->
  Forall (fun q => ticket q <> t) l1 ->
  take_ticket t (l1 ++ p :: l2) = Some (p, l1 ++ l2).
Proof.
  intros Hp. induction l1 as [|a l1 IH]; simpl; intros Hl.
  - subst. now rewrite Nat.eqb_refl.
  - inversion Hl as [|? ? Ha Hl']; subst.
    destruct (Nat.eqb_spec (ticket a) (ticket p)); [contradiction|].
    now rewrite IH.
Qed.

Lemma take_ticket_keeps t' p l1 l2 q rest :
  ticket p <> t' ->
  Forall (fun q => ticket q <> ticket p) l1 ->
  take_ticket t' (l1 ++ p :: l2) = Some (q, rest) ->
  exists l1' l2',
    rest = l1' ++ p :: l2' /\ Forall (fun q => ticket q <> ticket p) l1'.
Proof.
  intros Hp. revert q rest.
  induction l1 as [|a l1 IH]; simpl; intros q rest Hl.
  - destruct (Nat.eqb_spec (ticket p) t'); [contradiction|].
    destruct (take_ticket t' l2) as [[q' r']|]; [|discriminate].
    intros [= <- <-]. exists [], r'. split; auto.
  - inversion Hl as [|? ? Ha Hl']; subst.
    destruct (Nat.eqb_spec (ticket a) t').
    + intros [= <- <-]. exists l1, l2. split; auto.
    + destruct (take_ticket t' (l1 ++ p :: l2)) as [[q' r']|] eqn:E;
        [|discriminate].
      intros [= <- <-].
      destruct (IH q' r' Hl' eq_refl) as (l1' & l2' & -> & Hl1').
      exists (a :: l1'), l2'. split; auto.
Qed.

Lemma awaiting_step p s e :
  (exists l1 l2, inflight s = l1 ++ p :: l2
                 /\ Forall (fun q => ticket q <> ticket p) l1) ->
  is_done_of (ticket p) e = false ->
  exists l1 l2, inflight (step s e) = l1 ++ p :: l2
                /\ Forall (fun q => ticket q <> ticket p) l1.
Proof.
  intros (l1 & l2 & Hin & Hl1) He. rewrite inflight_step.
  destruct e as [sid|sid u|sid [d|]|sid [d|]|sid [d|]|sid|t up];
    try (exists l1, l2; now split).
  - exists l1, (l2 ++ [mkPending (next_ticket s) (message_stmt d) (timestamp d)]).
    split; auto. rewrite Hin, <- app_assoc. reflexivity.
  - exists l1, (l2 ++ [mkPending (next_ticket s) (image_stmt d) (timestamp d)]).
    split; auto. rewrite Hin, <- app_assoc. reflexivity.
  - simpl in He. apply Nat.eqb_neq in He.
    destruct (take_ticket t (inflight s)) as [[q rest]|] eqn:E.
    + rewrite Hin in E.
      apply (take_ticket_keeps t p l1 l2 q rest); auto.
    + exists l1, l2. now split.
Qed.

Lemma awaiting_final p es s :
  (exists l1 l2, inflight s = l1 ++ p :: l2
                 /\ Forall (fun q => ticket q <> ticket p) l1) ->
  existsb (is_done_of (ticket p)) es = false ->
  exists l1 l2, inflight (final es s) = l1 ++ p :: l2
                /\ Forall (fun q => ticket q <> ticket p) l1.
Proof.
  revert s. induction es as [|e es IH]; intros s Hs Hes; [exact Hs|].
  simpl in Hes. apply orb_false_iff in Hes. destruct Hes as [He Hes].
  rewrite final_cons. apply IH; auto. now apply awaiting_step.
Qed.

(** After a [db.run] at a reachable state, and whatever other events come in
    between, the statement is still there to be completed. *)
Lemma issued_then_pending s st ts es :
  reachable s ->
  existsb (is_done_of (next_ticket s)) es = false ->
  let s1 :=
    mkState (onlineUsers s) (messages s)
      (inflight s ++ [mkPending (next_ticket s) st ts]) (S (next_ticket s)) in
  exists rest,
    take_ticket (next_ticket s) (inflight (final es s1))
    = Some (mkPending (next_ticket s) st ts, rest).
Proof.
  intros Hr Hes s1.
  set (p := mkPending (next_ticket s) st ts).
  assert (Hp : exists l1 l2, inflight (final es s1) = l1 ++ p :: l2
                 /\ Forall (fun q => ticket q <> ticket p) l1).
  { apply awaiting_final; auto.
    exists (inflight s), []. split; auto.
    apply tickets_fresh_reachable in Hr. unfold tickets_fresh in Hr.
    eapply Forall_impl; [|exact Hr]. simpl. intros; lia. }
  destruct Hp as (l1 & l2 & -> & Hl1).
  exists (l1 ++ l2). now apply take_ticket_first.
Qed.

(** * Persist, then deliver *)

Lemma db_run_Some up st rows rows' :
  Db.run up st rows = Some rows' ->
  up = true /\ Db.not_null_ok (Db.row_of st) = true
  /\ rows' = rows ++ [Db.row_of st].
Proof.
  unfold Db.run. destruct up; simpl; [|discriminate].
  destruct (Db.not_null_ok (Db.row_of st)); [|discriminate].
  intros [= <-]. auto.
Qed.


Lemma integer_column_number n :
  Db.int64 n = true -> Db.integer_column (VNum n) = Db.Integer n.
Proof. simpl. now intros ->. Qed.

(** A statement issued at a reachable state [s] gets the ticket
    [next_ticket s]; whatever happens in between, its completion runs the
    callback on the state of that moment. *)
Lemma completion_after_issue s st ts between up :
  reachable s ->
  existsb (is_done_of (next_ticket s)) between = false ->
  let s2 :=
    final between
      (mkState (onlineUsers s) (messages s)
         (inflight s ++ [mkPending (next_ticket s) st ts])
         (S (next_ticket s))) in
  exists rest,
    (forall rows,
        Db.run up st (messages s2) = Some rows ->
        handle (db_done (next_ticket s) up) s2 =
        (tt, mkState (onlineUsers s2) rows rest (next_ticket s2),
         match truthy (JsMap.get (receiver_of st) (onlineUsers s2)) with
         | Some room => [EmitTo room (delivery_of st ts)]
         | None => [ConsoleLog (offline_note st)]
         end))
    /\ (Db.run up st (messages s2) = None ->
        handle (db_done (next_ticket s) up) s2 =
        (tt, mkState (onlineUsers s2) (messages s2) rest (next_ticket s2),
         [ConsoleLog (error_note st)])).
Proof.
  intros Hr Hb s2.
  destruct (issued_then_pending s st ts between Hr Hb) as [rest Ht].
  fold s2 in Ht. exists rest. split.
  - intros rows Hrun.
    now rewrite (handle_db_done_ok s2 _ up _ rest rows Ht Hrun).
  - intros Hrun.
    now rewrite (handle_db_done_err s2 _ up _ rest Ht Hrun).
Qed.

(** C1, as the code has it.  Every send whose INSERT succeeds leaves one
    more row in [messages]; this holds from every reachable state and
    across any events that arrive before the INSERT completes, so the
    presence of the receiver in [onlineUsers] plays no part.  The row holds
    the sender id and the receiver id as an INTEGER column keeps them and
    the payload as a TEXT column keeps it, and NULL in the other payload
    column.  An id that is a number (in the range of an INTEGER) and a
    payload that is a string are kept exactly as sent. *)
Theorem C1_successful_send_persists_row :
  forall s sid (d : Data) between up,
    reachable s ->
    existsb (is_done_of (next_ticket s)) between = false ->
    (forall rows,
        let s2 := final between (step s (send_message sid d)) in
        Db.run up (message_stmt d) (messages s2) = Some rows ->
        exists row,
          messages (step s2 (db_done (next_ticket s) up)) = messages s2 ++ [row]
          /\ Db.sender_id row = Db.integer_column (senderId d)
          /\ Db.receiver_id row = Db.integer_column (receiverId d)
          /\ Db.message row = Db.text_column (message d)
          /\ Db.image_data row = Db.Null
          /\ (forall n, senderId d = VNum n -> Db.int64 n = true ->
              Db.sender_id row = Db.as_sent (senderId d))
          /\ (forall n, receiverId d = VNum n -> Db.int64 n = true ->
              Db.receiver_id row = Db.as_sent (receiverId d))
          /\ (forall t, message d = VStr t ->
              Db.message row = Db.as_sent (message d)))
    /\
    (forall rows,
        let s2 := final between (step s (send_image sid d)) in
        Db.run up (image_stmt d) (messages s2) = Some rows ->
        exists row,
          messages (step s2 (db_done (next_ticket s) up)) = messages s2 ++ [row]
          /\ Db.sender_id row = Db.integer_column (senderId d)
          /\ Db.receiver_id row = Db.integer_column (receiverId d)
          /\ Db.image_data row = Db.text_column (imageData d)
          /\ Db.message row = Db.Null
          /\ (forall n, senderId d = VNum n -> Db.int64 n = true ->
              Db.sender_id row = Db.as_sent (senderId d))
          /\ (forall n, receiverId d = VNum n -> Db.int64 n = true ->
              Db.receiver_id row = Db.as_sent (receiverId d))
          /\ (forall t, imageData d = VStr t ->
              Db.image_data row = Db.as_sent (imageData d))).
Proof.
  intros s sid d between up Hr Hb. split; intros rows s2 Hrun; subst s2.
  - rewrite step_send_message in *.
    destruct (completion_after_issue s (message_stmt d) (timestamp d)
                between up Hr Hb) as (rest & Hok & _).
    specialize (Hok rows Hrun).
    destruct (db_run_Some _ _ _ _ Hrun) as (_ & _ & ->).
    exists (Db.row_of (message_stmt d)).
    unfold step at 1. rewrite Hok. simpl.
    repeat split; auto.
    + intros n -> Hn. now apply integer_column_number.
    + intros n -> Hn. now apply integer_column_number.
    + now intros t ->.
  - rewrite step_send_image in *.
    destruct (completion_after_issue s (image_stmt d) (timestamp d)
                between up Hr Hb) as (rest & Hok & _).
    specialize (Hok rows Hrun).
    destruct (db_run_Some _ _ _ _ Hrun) as (_ & _ & ->).
    exists (Db.row_of (image_stmt d)).
    unfold step at 1. rewrite Hok. simpl.
    repeat split; auto.
    + intros n -> Hn. now apply integer_column_number.
    + intros n -> Hn. now apply integer_column_number.
    + now intros t ->.
Qed.

Lemma truthy_Some room : nonempty room = true -> truthy (Some room) = Some room.
Proof. simpl. now intros ->. Qed.

(** C2. When the INSERT of a send succeeds and the receiver id has an entry
    in [onlineUsers] at that moment, the callback emits exactly one packet,
    [receive_message] or [receive_image] with the sender id, the payload and
    the timestamp, to the socket id stored for the receiver.  When the
    receiver id has no entry, the callback emits nothing and only prints a
    line on the console. *)
Theorem C2_exactly_one_delivery_when_online :
  forall s sid (d : Data) between up,
    reachable s ->
    existsb (is_done_of (next_ticket s)) between = false ->
    (forall rows,
        let s2 := final between (step s (send_message sid d)) in
        Db.run up (message_stmt d) (messages s2) = Some rows ->
        (forall room,
            JsMap.get (receiverId d) (onlineUsers s2) = Some room ->
            nonempty room = true ->
            outputs s2 (db_done (next_ticket s) up) =
            [EmitTo room
               (receive_message (senderId d) (message d) (timestamp d))])
        /\ (JsMap.get (receiverId d) (onlineUsers s2) = None ->
            outputs s2 (db_done (next_ticket s) up) =
            [ConsoleLog (MessageSavedForOfflineUser (receiverId d))]))
    /\
    (forall rows,
        let s2 := final between (step s (send_image sid d)) in
        Db.run up (image_stmt d) (messages s2) = Some rows ->
        (forall room,
            JsMap.get (receiverId d) (onlineUsers s2) = Some room ->
            nonempty room = true ->
            outputs s2 (db_done (next_ticket s) up) =
            [EmitTo room
               (receive_image (senderId d) (imageData d) (timestamp d))])
        /\ (JsMap.get (receiverId d) (onlineUsers s2) = None ->
            outputs s2 (db_done (next_ticket s) up) =
            [ConsoleLog (ImageSavedForOfflineUser (receiverId d))])).
Proof.
  intros s sid d between up Hr Hb. split; intros rows s2 Hrun; subst s2.
  - rewrite step_send_message in *.
    destruct (completion_after_issue s (message_stmt d) (timestamp d)
                between up Hr Hb) as (rest & Hok & _).
    specialize (Hok rows Hrun). unfold outputs. rewrite Hok. simpl.
    split.
    + intros room Hg Hne. rewrite Hg. simpl. now rewrite Hne.
    + now intros ->.
  - rewrite step_send_image in *.
    destruct (completion_after_issue s (image_stmt d) (timestamp d)
                between up Hr Hb) as (rest & Hok & _).
    specialize (Hok rows Hrun). unfold outputs. rewrite Hok. simpl.
    split.
    + intros room Hg Hne. rewrite Hg. simpl. now rewrite Hne.
    + now intros ->.
Qed.


(** C3, as the code has it.  When the INSERT of a send fails, the callback
    returns at once: no row is added, [onlineUsers] is untouched, and the
    only output is one line on the server console.  Nothing is emitted, to
    the sender or to anyone else. *)
Theorem C3_failed_insert_only_logged :
  forall s sid (d : Data) between up,
    reachable s ->
    existsb (is_done_of (next_ticket s)) between = false ->
    (let s2 := final between (step s (send_message sid d)) in
     Db.run up (message_stmt d) (messages s2) = None ->
     messages (step s2 (db_done (next_ticket s) up)) = messages s2
     /\ onlineUsers (step s2 (db_done (next_ticket s) up)) = onlineUsers s2
     /\ outputs s2 (db_done (next_ticket s) up) = [ConsoleLog ErrorSavingMessage])
    /\
    (let s2 := final between (step s (send_image sid d)) in
     Db.run up (image_stmt d) (messages s2) = None ->
     messages (step s2 (db_done (next_ticket s) up)) = messages s2
     /\ onlineUsers (step s2 (db_done (next_ticket s) up)) = onlineUsers s2
     /\ outputs s2 (db_done (next_ticket s) up) = [ConsoleLog ErrorSavingImage]).
Proof.
  intros s sid d between up Hr Hb. split; intros s2 Hrun; subst s2.
  - rewrite step_send_message in *.
    destruct (completion_after_issue s (message_stmt d) (timestamp d)
                between up Hr Hb) as (rest & _ & Herr).
    specialize (Herr Hrun). unfold step, outputs. now rewrite Herr.
  - rewrite step_send_image in *.
    destruct (completion_after_issue s (image_stmt d) (timestamp d)
                between up Hr Hb) as (rest & _ & Herr).
    specialize (Herr Hrun). unfold step, outputs. now rewrite Herr.
Qed.



(** C4, as the code has it.  The handlers never look at the payload.  For
    every event object, [send_message] emits nothing and hands the store an
    INSERT of (senderId, receiverId, message), whatever [imageData] holds;
    [send_image] does the same with [imageData].  When the store carries the
    INSERT out, the row is written, and an event with neither payload field
    leaves a row whose two payload columns are both NULL.  Whether the store
    carries the INSERT out does not depend on the payload: it does whenever
    it is up and neither id is missing. *)
Theorem C4_payload_is_not_validated :
  forall s sid (d : Data),
    (outputs s (send_message sid d) = []
     /\ inflight (step s (send_message sid d)) =
        inflight s ++
        [mkPending (next_ticket s)
           (Db.InsertMessage (senderId d) (receiverId d) (message d))
           (timestamp d)])
    /\ (outputs s (send_image sid d) = []
        /\ inflight (step s (send_image sid d)) =
           inflight s ++
           [mkPending (next_ticket s)
              (Db.InsertImage (senderId d) (receiverId d) (imageData d))
              (timestamp d)])
    /\ (forall between up rows,
          reachable s ->
          existsb (is_done_of (next_ticket s)) between = false ->
          let s2 := final between (step s (send_message sid d)) in
          Db.run up (message_stmt d) (messages s2) = Some rows ->
          messages (step s2 (db_done (next_ticket s) up)) =
          messages s2 ++
          [Db.mkRow (Db.integer_column (senderId d))
             (Db.integer_column (receiverId d))
             (Db.text_column (message d)) Db.Null]
          /\ (message d = VUndef ->
              messages (step s2 (db_done (next_ticket s) up)) =
              messages s2 ++
              [Db.mkRow (Db.integer_column (senderId d))
                 (Db.integer_column (receiverId d)) Db.Null Db.Null]))
    /\ (forall between up rows,
          reachable s ->
          existsb (is_done_of (next_ticket s)) between = false ->
          let s2 := final between (step s (send_image sid d)) in
          Db.run up (image_stmt d) (messages s2) = Some rows ->
          messages (step s2 (db_done (next_ticket s) up)) =
          messages s2 ++
          [Db.mkRow (Db.integer_column (senderId d))
             (Db.integer_column (receiverId d)) Db.Null
             (Db.text_column (imageData d))]
          /\ (imageData d = VUndef ->
              messages (step s2 (db_done (next_ticket s) up)) =
              messages s2 ++
              [Db.mkRow (Db.integer_column (senderId d))
                 (Db.integer_column (receiverId d)) Db.Null Db.Null]))
    /\ (Db.is_null (Db.integer_column (senderId d)) = false ->
        Db.is_null (Db.integer_column (receiverId d)) = false ->
        forall rows,
          Db.run true (message_stmt d) rows
          = Some (rows ++ [Db.row_of (message_stmt d)])
          /\ Db.run true (image_stmt d) rows
             = Some (rows ++ [Db.row_of (image_stmt d)])).
Proof.
  intros s sid d.
  split; [split; reflexivity|]. split; [split; reflexivity|].
  split; [|split].
  - intros between up rows Hr Hb s2 Hrun. subst s2.
    rewrite step_send_message in *.
    destruct (completion_after_issue s (message_stmt d) (timestamp d)
                between up Hr Hb) as (rest & Hok & _).
    specialize (Hok rows Hrun).
    destruct (db_run_Some _ _ _ _ Hrun) as (_ & _ & ->).
    unfold step. rewrite Hok. simpl.
    split; [reflexivity|]. now intros ->.
  - intros between up rows Hr Hb s2 Hrun. subst s2.
    rewrite step_send_image in *.
    destruct (completion_after_issue s (image_stmt d) (timestamp d)
                between up Hr Hb) as (rest & Hok & _).
    specialize (Hok rows Hrun).
    destruct (db_run_Some _ _ _ _ Hrun) as (_ & _ & ->).
    unfold step. rewrite Hok. simpl.
    split; [reflexivity|]. now intros ->.
  - intros Hsn Hrn rows. unfold Db.run, Db.not_null_ok. simpl.
    now rewrite Hsn, Hrn.
Qed.



(** * Presence *)

Lemma truthy_inv x room : truthy x = Some room -> x = Some room.
Proof.
  destruct x as [r|]; simpl; [|discriminate].
  destruct (nonempty r); [|discriminate]. now intros [= ->].
Qed.

(** Unless [A] logs in on another socket, an entry of [A] that holds [H]
    stays as it is or goes away. *)
Lemma binding_step s A H e :
  JsMap.wf (onlineUsers s) ->
  rebinds A H e = false ->
  JsMap.get A (onlineUsers s) = Some H \/ JsMap.get A (onlineUsers s) = None ->
  JsMap.get A (onlineUsers (step s e)) = Some H
  \/ JsMap.get A (onlineUsers (step s e)) = None.
Proof.
  intros Hwf He Hget. rewrite onlineUsers_step.
  destruct e as [sid|sid u|sid [d|]|sid [d|]|sid [d|]|sid|t up]; auto.
  - simpl in He. destruct (value_eqb_spec u A) as [->|Hne].
    + destruct (String.eqb_spec sid H) as [->|]; [|discriminate].
      left. apply JsMapFacts.get_set_same.
    + now rewrite JsMapFacts.get_set_other.
  - destruct (first_user_of sid (JsMap.entries (onlineUsers s))) as [u|]; auto.
    destruct (value_eqb_spec u A) as [->|Hne].
    + right. apply JsMapFacts.get_None. now apply JsMapFacts.keys_delete_same.
    + now rewrite JsMapFacts.get_delete_other.
Qed.

Lemma binding_final es s A H :
  JsMap.wf (onlineUsers s) ->
  existsb (rebinds A H) es = false ->
  JsMap.get A (onlineUsers s) = Some H \/ JsMap.get A (onlineUsers s) = None ->
  JsMap.get A (onlineUsers (final es s)) = Some H
  \/ JsMap.get A (onlineUsers (final es s)) = None.
Proof.
  revert s. induction es as [|e es IH]; intros s Hwf Hes Hget; [exact Hget|].
  simpl in Hes. apply orb_false_iff in Hes. destruct Hes as [He Hes].
  rewrite final_cons. apply IH; auto.
  - now apply wf_step.
  - now apply binding_step.
Qed.

(** Every packet that an event meant for [A] emits goes to the socket id
    stored for [A]. *)
Lemma targeted_emit s e A o :
  target_of s e = Some A ->
  In o (outputs s e) ->
  is_emit o = true ->
  exists room pk,
    o = EmitTo room pk /\ JsMap.get A (onlineUsers s) = Some room.
Proof.
  intros Ht Hin Hem.
  destruct e as [sid|sid u|sid [d|]|sid [d|]|sid [d|]|sid|t up]; try discriminate.
  - simpl in Ht. injection Ht as <-.
    unfold outputs in Hin. rewrite handle_typing in Hin. simpl in Hin.
    destruct (truthy (JsMap.get (receiverId d) (onlineUsers s))) as [room|] eqn:E;
      [|contradiction].
    destruct Hin as [<-|[]]. apply truthy_inv in E. eauto.
  - simpl in Ht. unfold outputs in Hin.
    destruct (db_done_cases s t up)
      as [[E Hh]|[(p & rest & rows & E & _ & Hh)|(p & rest & E & _ & Hh)]];
      rewrite Hh in Hin; rewrite E in Ht; simpl in Hin; try discriminate.
    + injection Ht as <-.
      destruct (truthy (JsMap.get (receiver_of (stmt p)) (onlineUsers s)))
        as [room|] eqn:Et.
      * destruct Hin as [<-|[]]. apply truthy_inv in Et. eauto.
      * destruct Hin as [<-|[]]. discriminate.
    + destruct Hin as [<-|[]]. discriminate.
Qed.

(** C5. After a user id has logged in on one socket and then on another,
    [onlineUsers] holds the second socket id for it.  As long as that user
    id does not log in on yet another socket, its entry is that socket id
    or is gone, and
    every packet emitted by a delivery or a typing notice meant for that
    user goes to that socket id. *)
Theorem C5_last_login_wins :
  forall s A H1 H2 mid later,
    reachable s ->
    existsb (rebinds A H2) later = false ->
    let s2 := step (final mid (step s (user_login H1 A))) (user_login H2 A) in
    let s3 := final later s2 in
    JsMap.get A (onlineUsers s2) = Some H2
    /\ (JsMap.get A (onlineUsers s3) = Some H2
        \/ JsMap.get A (onlineUsers s3) = None)
    /\ (forall e o,
          target_of s3 e = Some A ->
          In o (outputs s3 e) ->
          is_emit o = true ->
          exists pk, o = EmitTo H2 pk).
Proof.
  intros s A H1 H2 mid later Hr Hl s2 s3.
  assert (Hr2 : reachable s2).
  { unfold s2. constructor. apply reachable_final. now constructor. }
  assert (Hg2 : JsMap.get A (onlineUsers s2) = Some H2).
  { unfold s2. rewrite onlineUsers_step. apply JsMapFacts.get_set_same. }
  assert (Hg3 : JsMap.get A (onlineUsers s3) = Some H2
                \/ JsMap.get A (onlineUsers s3) = None).
  { unfold s3. apply binding_final; auto. now apply wf_reachable. }
  split; [exact Hg2|]. split; [exact Hg3|].
  intros e o Ht Hin Hem.
  destruct (targeted_emit s3 e A o Ht Hin Hem) as (room & pk & -> & Hroom).
  exists pk. destruct Hg3 as [Hg3|Hg3]; congruence.
Qed.


Lemma first_user_of_In sid m u : first_user_of sid m = Some u -> In (u, sid) m.
Proof.
  induction m as [|[k v] m IH]; simpl; [discriminate|].
  destruct (String.eqb_spec v sid) as [->|].
  - intros [= ->]. now left.
  - auto.
Qed.

Lemma first_user_of_found sid m k :
  In (k, sid) m -> exists u, first_user_of sid m = Some u.
Proof.
  induction m as [|[k0 v0] m IH]; simpl; [contradiction|].
  destruct (String.eqb_spec v0 sid) as [->|Hne]; eauto.
  intros [[= -> ->]|Hin]; [contradiction|auto].
Qed.

Lemma first_user_of_None sid m :
  first_user_of sid m = None <-> ~ In sid (JsMap.values m).
Proof.
  induction m as [|[k v] m IH]; simpl.
  - tauto.
  - destruct (String.eqb_spec v sid) as [->|Hne].
    + split; [discriminate|tauto].
    + rewrite IH. tauto.
Qed.

Lemma wf_In_get k v m : JsMap.wf m -> In (k, v) m -> JsMap.get k m = Some v.
Proof.
  unfold JsMap.wf. induction m as [|[k0 v0] m IH]; simpl; [contradiction|].
  intros Hnd. inversion Hnd as [|? ? Hnot Hrest]; subst.
  intros [[= -> ->]|Hin].
  - now rewrite value_eqb_refl.
  - destruct (value_eqb_spec k0 k) as [->|]; auto.
    exfalso. apply Hnot. change k with (fst (k, v)). now apply in_map.
Qed.

Lemma outputs_disconnect s sid :
  outputs s (disconnect sid) =
  [EmitAll (online_users (JsMap.keys (onlineUsers (step s (disconnect sid)))));
   ConsoleLog (UserDisconnected sid)].
Proof. unfold outputs, step. now rewrite handle_disconnect. Qed.

(** C6, as the code has it.  The login of [A] on socket [H] broadcasts a
    snapshot that includes [A].  When [H] disconnects later, the broadcast
    excludes [A] if [A] has not logged in on another socket in between and
    the first entry of [onlineUsers] that holds [H] is not the entry of
    another user.  If [A] is bound to another socket at that moment, the
    broadcast still includes [A]. *)
Theorem C6_presence_snapshot :
  forall s H A,
    reachable s ->
    (exists ks,
        outputs s (user_login H A) = [EmitAll (online_users ks)] /\ In A ks)
    /\ (forall mid,
          existsb (rebinds A H) mid = false ->
          let s1 := final mid (step s (user_login H A)) in
          (forall B,
              first_user_of H (JsMap.entries (onlineUsers s1)) = Some B ->
              B = A) ->
          exists ks,
            outputs s1 (disconnect H) =
            [EmitAll (online_users ks); ConsoleLog (UserDisconnected H)]
            /\ ~ In A ks)
    /\ (forall mid H',
          let s1 := final mid (step s (user_login H A)) in
          JsMap.get A (onlineUsers s1) = Some H' ->
          H' <> H ->
          exists ks,
            outputs s1 (disconnect H) =
            [EmitAll (online_users ks); ConsoleLog (UserDisconnected H)]
            /\ In A ks).
Proof.
  intros s H A Hr. split; [|split].
  - eexists. split; [reflexivity|]. apply JsMapFacts.keys_set.
  - intros mid Hmid s1 Hfirst.
    assert (Hr1 : reachable s1).
    { unfold s1. apply reachable_final. now constructor. }
    pose proof (wf_reachable _ Hr1) as Hwf.
    assert (Hg : JsMap.get A (onlineUsers s1) = Some H
                 \/ JsMap.get A (onlineUsers s1) = None).
    { unfold s1. apply binding_final; auto.
      - apply wf_reachable. now constructor.
      - left. rewrite onlineUsers_step. apply JsMapFacts.get_set_same. }
    eexists. split; [apply outputs_disconnect|].
    rewrite onlineUsers_step.
    destruct Hg as [Hg|Hg].
    + destruct (first_user_of_found H (onlineUsers s1) A) as [B HB].
      { now apply JsMapFacts.get_Some_In. }
      unfold JsMap.entries in *. rewrite HB. rewrite (Hfirst B HB).
      now apply JsMapFacts.keys_delete_same.
    + apply JsMapFacts.get_None in Hg.
      destruct (first_user_of H (JsMap.entries (onlineUsers s1))); auto.
      intros Hin. apply Hg. eapply JsMapFacts.keys_delete_incl; eauto.
  - intros mid H' s1 Hg Hne.
    assert (Hr1 : reachable s1).
    { unfold s1. apply reachable_final. now constructor. }
    pose proof (wf_reachable _ Hr1) as Hwf.
    assert (HinA : In A (JsMap.keys (onlineUsers s1))).
    { destruct (in_dec (fun a b => reflect_dec _ _ (value_eqb_spec a b)) A
                  (JsMap.keys (onlineUsers s1))) as [|Hn]; auto.
      apply JsMapFacts.get_None in Hn. congruence. }
    eexists. split; [apply outputs_disconnect|].
    rewrite onlineUsers_step.
    destruct (first_user_of H (JsMap.entries (onlineUsers s1))) as [B|] eqn:HB;
      auto.
    apply JsMapFacts.keys_delete_other; auto.
    intros ->. apply first_user_of_In in HB.
    apply (wf_In_get _ _ _ Hwf) in HB. congruence.
Qed.




(** * Delivery comes after persistence *)


(** A delivery packet in the outputs of one event: the event is the
    completion of an in-flight INSERT that the store carried out, and the
    row is in the table when the callback emits. *)
Lemma delivery_step s e room pk :
  In (EmitTo room pk) (outputs s e) ->
  is_delivery pk = true ->
  exists t up p rest,
    e = db_done t up
    /\ take_ticket t (inflight s) = Some (p, rest)
    /\ Db.run up (stmt p) (messages s) = Some (messages s ++ [Db.row_of (stmt p)])
    /\ messages (step s e) = messages s ++ [Db.row_of (stmt p)]
    /\ pk = delivery_of (stmt p) (captured_timestamp p)
    /\ JsMap.get (receiver_of (stmt p)) (onlineUsers s) = Some room
    /\ persisted_as pk (Db.row_of (stmt p)).
Proof.
  intros Hin Hd.
  destruct e as [sid|sid u|sid [d|]|sid [d|]|sid [d|]|sid|t up];
    try (simpl in Hin; intuition discriminate).
  - unfold outputs in Hin. rewrite handle_typing in Hin. simpl in Hin.
    destruct (truthy (JsMap.get (receiverId d) (onlineUsers s)));
      simpl in Hin; [|contradiction].
    destruct Hin as [[= <- <-]|[]]. discriminate.
  - rewrite outputs_disconnect in Hin. simpl in Hin. intuition discriminate.
  - unfold outputs, step in *.
    destruct (db_done_cases s t up)
      as [[E Hh]|[(p & rest & rows & E & Hrun & Hh)|(p & rest & E & _ & Hh)]];
      rewrite Hh in *; simpl in *; try (intuition discriminate).
    destruct (db_run_Some _ _ _ _ Hrun) as (_ & Hnn & ->).
    destruct (truthy (JsMap.get (receiver_of (stmt p)) (onlineUsers s)))
      as [r|] eqn:Et; simpl in Hin; [|intuition discriminate].
    destruct Hin as [[= <- <-]|[]]. apply truthy_inv in Et.
    exists t, up, p, rest. repeat split; auto.
    destruct (stmt p); simpl; auto.
Qed.




(** * Disconnect *)

Lemma unbound_step s sid e :
  ~ In sid (JsMap.values (onlineUsers s)) ->
  is_login_on sid e = false ->
  ~ In sid (JsMap.values (onlineUsers (step s e))).
Proof.
  intros Hn He. rewrite onlineUsers_step.
  destruct e as [sid0|sid0 u|sid0 [d|]|sid0 [d|]|sid0 [d|]|sid0|t up]; auto.
  - simpl in He. intros Hin. apply JsMapFacts.values_set_incl in Hin.
    destruct Hin as [->|Hin]; [|contradiction].
    now rewrite String.eqb_refl in He.
  - destruct (first_user_of sid0 (JsMap.entries (onlineUsers s))); auto.
    intros Hin. apply Hn. eapply JsMapFacts.values_delete_incl; eauto.
Qed.

Lemma unbound_final es s sid :
  ~ In sid (JsMap.values (onlineUsers s)) ->
  existsb (is_login_on sid) es = false ->
  ~ In sid (JsMap.values (onlineUsers (final es s))).
Proof.
  revert s. induction es as [|e es IH]; intros s Hn Hes; [exact Hn|].
  simpl in Hes. apply orb_false_iff in Hes. destruct Hes as [He Hes].
  rewrite final_cons. apply IH; auto. now apply unbound_step.
Qed.

(** C9. When a socket that never sent [user_login] disconnects, the handler
    finds no entry for it: the server state, [onlineUsers] included, is
    what it was, and the handler only broadcasts the unchanged snapshot and
    prints its console line. *)
Theorem C9_disconnect_of_unbound_socket :
  forall es sid,
    existsb (is_login_on sid) es = false ->
    let s := final es init in
    onlineUsers (step s (disconnect sid)) = onlineUsers s
    /\ step s (disconnect sid) = s
    /\ outputs s (disconnect sid) =
       [EmitAll (online_users (JsMap.keys (onlineUsers s)));
        ConsoleLog (UserDisconnected sid)].
Proof.
  intros es sid Hes s.
  assert (Hnone : first_user_of sid (JsMap.entries (onlineUsers s)) = None).
  { apply first_user_of_None. unfold s. apply unbound_final; auto. }
  assert (Hstep : step s (disconnect sid) = s).
  { unfold step. rewrite handle_disconnect. rewrite Hnone. simpl.
    now destruct s. }
  split; [now rewrite Hstep|]. split; [exact Hstep|].
  rewrite outputs_disconnect. now rewrite Hstep.
Qed.


Lemma first_user_of_split sid l1 u l2 :
  ~ In sid (JsMap.values l1) ->
  first_user_of sid (l1 ++ (u, sid) :: l2) = Some u.
Proof.
  induction l1 as [|[k v] l1 IH]; simpl; intros Hn.
  - now rewrite String.eqb_refl.
  - destruct (String.eqb_spec v sid) as [->|]; [tauto|]. apply IH. tauto.
Qed.

Lemma delete_split u v l1 l2 :
  ~ In u (JsMap.keys l1) ->
  JsMap.delete u (l1 ++ (u, v) :: l2) = l1 ++ l2.
Proof.
  induction l1 as [|[k0 v0] l1 IH]; simpl; intros Hn.
  - now rewrite value_eqb_refl.
  - destruct (value_eqb_spec k0 u) as [->|]; [tauto|].
    rewrite IH; tauto.
Qed.

(** C10. A disconnect removes at most one entry of [onlineUsers]: the first
    entry, in insertion order, whose socket id is the one that went away.
    Of two different user ids bound to that socket id, at least one is
    still bound to it afterwards. *)
Theorem C10_disconnect_removes_first_match_only :
  forall s sid,
    reachable s ->
    let m := onlineUsers s in
    let m' := onlineUsers (step s (disconnect sid)) in
    List.length m <= S (List.length m')
    /\ (~ In sid (JsMap.values m) -> m' = m)
    /\ (forall l1 u l2,
          m = l1 ++ (u, sid) :: l2 ->
          ~ In sid (JsMap.values l1) ->
          m' = l1 ++ l2)
    /\ (forall A B,
          A <> B ->
          JsMap.get A m = Some sid ->
          JsMap.get B m = Some sid ->
          JsMap.get A m' = Some sid \/ JsMap.get B m' = Some sid).
Proof.
  intros s sid Hr m m'. pose proof (wf_reachable s Hr) as Hwf.
  unfold m'. rewrite onlineUsers_step. fold m. unfold JsMap.entries.
  repeat split.
  - destruct (first_user_of sid m); [apply JsMapFacts.length_delete | lia].
  - intros Hn. apply first_user_of_None in Hn. now rewrite Hn.
  - intros l1 u l2 Hm Hn. rewrite Hm.
    rewrite first_user_of_split by assumption.
    apply delete_split.
    unfold JsMap.wf, JsMap.keys in Hwf. fold m in Hwf. rewrite Hm in Hwf.
    rewrite map_app in Hwf. simpl in Hwf.
    apply NoDup_remove_2 in Hwf. intros Hin. apply Hwf.
    apply in_or_app. now left.
  - intros A B Hne HA HB.
    destruct (first_user_of sid m) as [u|]; auto.
    destruct (value_eqb_spec u A) as [->|HuA].
    + right. now rewrite JsMapFacts.get_delete_other.
    + left. now rewrite JsMapFacts.get_delete_other.
Qed.


(** * Further properties of the event machine *)


Lemma take_ticket_length t ps p rest :
  take_ticket t ps = Some (p, rest) ->
  In p ps /\ List.length ps = S (List.length rest).
Proof.
  revert p rest. induction ps as [|a ps IH]; simpl; intros p rest;
    [discriminate|].
  destruct (Nat.eqb (ticket a) t).
  - intros [= <- <-]. auto.
  - destruct (take_ticket t ps) as [[q r]|]; [|discriminate].
    intros [= <- <-]. destruct (IH q r eq_refl) as [Hin Hlen].
    simpl. split; auto.
Qed.

(** The rows of the table are never removed or rewritten: a run only
    appends. *)
Theorem messages_append_only :
  forall es s, exists added, messages (final es s) = messages s ++ added.
Proof.
  induction es as [|e es IH]; intros s.
  - exists []. simpl. now rewrite app_nil_r.
  - rewrite final_cons. destruct (IH (step s e)) as [a2 ->].
    destruct (messages_step s e) as [a1 ->].
    exists (a1 ++ a2). now rewrite app_assoc.
Qed.




(** A presence broadcast is sent by a login or a disconnect only, and lists
    exactly the keys of [onlineUsers] as they are after that event, each user
    id once. *)
Theorem broadcast_is_current_registry :
  forall s e ks,
    reachable s ->
    In (EmitAll (online_users ks)) (outputs s e) ->
    ks = JsMap.keys (onlineUsers (step s e))
    /\ NoDup ks
    /\ ((exists sid u, e = user_login sid u)
        \/ (exists sid, e = disconnect sid)).
Proof.
  intros s e ks Hr Hin.
  assert (Hwf : NoDup (JsMap.keys (onlineUsers (step s e)))).
  { apply (wf_reachable (step s e)). now constructor. }
  destruct e as [sid|sid u|sid [d|]|sid [d|]|sid [d|]|sid|t up].
  - simpl in Hin. intuition discriminate.
  - simpl in Hin. destruct Hin as [[= <-]|[]].
    repeat split; eauto.
  - simpl in Hin. contradiction.
  - simpl in Hin. intuition discriminate.
  - simpl in Hin. contradiction.
  - simpl in Hin. intuition discriminate.
  - unfold outputs in Hin. rewrite handle_typing in Hin. simpl in Hin.
    destruct (truthy (JsMap.get (receiverId d) (onlineUsers s)));
      simpl in Hin; intuition discriminate.
  - simpl in Hin. intuition discriminate.
  - rewrite outputs_disconnect in Hin. simpl in Hin.
    destruct Hin as [[= <-]|[Hin|[]]]; [|discriminate].
    repeat split; eauto.
  - unfold outputs in Hin.
    destruct (db_done_cases s t up)
      as [[E Hh]|[(p & rest & rows & E & _ & Hh)|(p & rest & E & _ & Hh)]];
      rewrite Hh in Hin; simpl in Hin; try (intuition discriminate).
    destruct (truthy (JsMap.get (receiver_of (stmt p)) (onlineUsers s)));
      simpl in Hin; intuition discriminate.
Qed.


(** The entry of a user id changes only when that user id logs in, or when
    the socket it is bound to disconnects, which removes the entry.  No
    event touches the entry of another user. *)
Theorem binding_changes_only_by_own_events :
  forall s e A,
    reachable s ->
    JsMap.get A (onlineUsers (step s e)) <> JsMap.get A (onlineUsers s) ->
    (exists sid, e = user_login sid A)
    \/ (exists sid,
          e = disconnect sid
          /\ JsMap.get A (onlineUsers s) = Some sid
          /\ JsMap.get A (onlineUsers (step s e)) = None).
Proof.
  intros s e A Hr. pose proof (wf_reachable s Hr) as Hwf.
  rewrite onlineUsers_step.
  destruct e as [sid|sid u|sid [d|]|sid [d|]|sid [d|]|sid|t up]; try congruence.
  - destruct (value_eqb_spec u A) as [->|Hne]; [eauto|].
    rewrite JsMapFacts.get_set_other by assumption. congruence.
  - destruct (first_user_of sid (JsMap.entries (onlineUsers s))) as [u|] eqn:E;
      [|congruence].
    destruct (value_eqb_spec u A) as [->|Hne].
    + intros _. right. exists sid. split; [reflexivity|]. split.
      * apply wf_In_get; auto. now apply first_user_of_In.
      * apply JsMapFacts.get_None. now apply JsMapFacts.keys_delete_same.
    + rewrite JsMapFacts.get_delete_other by assumption. congruence.
Qed.


Lemma set_present k v m :
  In k (JsMap.keys m) -> JsMap.keys (JsMap.set k v m) = JsMap.keys m.
Proof.
  induction m as [|[k0 v0] m IH]; simpl; [contradiction|].
  destruct (value_eqb_spec k0 k) as [->|Hne]; simpl; auto.
  intros [?|Hin]; [contradiction|]. now rewrite IH.
Qed.

Lemma set_absent k v m :
  ~ In k (JsMap.keys m) -> JsMap.set k v m = m ++ [(k, v)].
Proof.
  induction m as [|[k0 v0] m IH]; simpl; auto.
  destruct (value_eqb_spec k0 k) as [->|Hne]; [tauto|].
  intros Hn. rewrite IH; tauto.
Qed.

(** The snapshot keeps the order of first logins: a user id that is already
    online keeps its place when it logs in again, on whatever socket, so the
    broadcast repeats the list as it was; a user id that is not online is
    added at the end. *)
Theorem login_snapshot_order :
  forall s sid A,
    (In A (JsMap.keys (onlineUsers s)) ->
     outputs s (user_login sid A)
     = [EmitAll (online_users (JsMap.keys (onlineUsers s)))])
    /\ (~ In A (JsMap.keys (onlineUsers s)) ->
        outputs s (user_login sid A)
        = [EmitAll (online_users (JsMap.keys (onlineUsers s) ++ [A]))]).
Proof.
  intros s sid A. unfold outputs. rewrite handle_user_login. simpl. split.
  - intros Hin. now rewrite set_present.
  - intros Hn. rewrite set_absent by assumption.
    unfold JsMap.keys. rewrite map_app. reflexivity.
Qed.


(** Login, then disconnect, of a user id that was not online on a socket id
    that no entry holds: the server state is what it was before. *)
Theorem login_then_disconnect_restores :
  forall s sid A,
    ~ In A (JsMap.keys (onlineUsers s)) ->
    ~ In sid (JsMap.values (onlineUsers s)) ->
    final [user_login sid A; disconnect sid] s = s.
Proof.
  intros s sid A HA Hsid.
  rewrite !final_cons. unfold final. simpl.
  unfold step at 1. rewrite handle_disconnect.
  rewrite onlineUsers_step. unfold JsMap.entries.
  rewrite set_absent by assumption.
  rewrite first_user_of_split by assumption.
  rewrite delete_split by assumption. simpl. rewrite app_nil_r.
  now destruct s.
Qed.


Lemma In_set a b k v m :
  In (a, b) (JsMap.set k v m) -> (a = k /\ b = v) \/ In (a, b) m.
Proof.
  induction m as [|[k0 v0] m IH]; simpl.
  - intros [[= <- <-]|[]]. auto.
  - destruct (value_eqb_spec k0 k) as [->|Hne]; simpl.
    + intros [[= <- <-]|Hin]; auto.
    + intros [Heq|Hin]; auto. destruct (IH Hin); auto.
Qed.

Lemma In_delete x k m : In x (JsMap.delete k m) -> In x m.
Proof.
  induction m as [|[k0 v0] m IH]; simpl; auto.
  destruct (value_eqb k0 k); simpl; auto.
  intros [<-|Hin]; auto.
Qed.

Lemma entries_from_logins es :
  forall s u sid,
    In (u, sid) (onlineUsers (final es s)) ->
    In (u, sid) (onlineUsers s) \/ In (user_login sid u) es.
Proof.
  induction es as [|e es IH]; intros s u sid Hin; [now left|].
  rewrite final_cons in Hin. destruct (IH _ _ _ Hin) as [H|H].
  - rewrite onlineUsers_step in H.
    destruct e as [sid0|sid0 u0|sid0 [d|]|sid0 [d|]|sid0 [d|]|sid0|t up]; auto.
    + apply In_set in H. destruct H as [[-> ->]|H]; auto.
      right. now left.
    + destruct (first_user_of sid0 (JsMap.entries (onlineUsers s))); auto.
      left. eapply In_delete; eauto.
  - right. now right.
Qed.

(** The registry never invents a binding: every entry of [onlineUsers]
    after a run from the initial state was put there by a [user_login] of
    that user id on that socket. *)
Theorem registry_entries_come_from_logins :
  forall es u sid,
    In (u, sid) (onlineUsers (final es init)) -> In (user_login sid u) es.
Proof.
  intros es u sid Hin.
  destruct (entries_from_logins es init u sid Hin) as [[]|H]. exact H.
Qed.


Lemma sent_in_app_l es1 es2 st ts :
  sent_in es1 st ts -> sent_in (es1 ++ es2) st ts.
Proof.
  intros (e & Hin & He). exists e. split; auto. apply in_or_app. now left.
Qed.

(** One event keeps the origin of what is in flight and what is stored. *)
Lemma origin_step hist s e :
  (forall p, In p (inflight s) ->
             sent_in hist (stmt p) (captured_timestamp p)) ->
  (forall r, In r (messages s) ->
             exists st ts, sent_in hist st ts /\ r = Db.row_of st) ->
  (forall p, In p (inflight (step s e)) ->
             sent_in (hist ++ [e]) (stmt p) (captured_timestamp p))
  /\ (forall r, In r (messages (step s e)) ->
                exists st ts, sent_in (hist ++ [e]) st ts /\ r = Db.row_of st)
  /\ (forall room pk,
         In (EmitTo room pk) (outputs s e) ->
         is_delivery pk = true ->
         exists st ts, sent_in hist st ts /\ pk = delivery_of st ts).
Proof.
  intros Hfl Hrows.
  assert (Hfl' : forall p, In p (inflight s) ->
                   sent_in (hist ++ [e]) (stmt p) (captured_timestamp p)).
  { intros p Hp. apply sent_in_app_l. auto. }
  assert (Hrows' : forall r, In r (messages s) ->
                     exists st ts, sent_in (hist ++ [e]) st ts
                                   /\ r = Db.row_of st).
  { intros r Hr. destruct (Hrows r Hr) as (st & ts & Hs & ->).
    exists st, ts. split; auto. now apply sent_in_app_l. }
  split; [|split].
  - intros p. rewrite inflight_step.
    destruct e as [sid|sid u|sid [d|]|sid [d|]|sid [d|]|sid|t up]; auto.
    + intros Hp. apply in_app_or in Hp. destruct Hp as [Hp|[<-|[]]]; auto.
      exists (send_message sid d). split; [|reflexivity].
      apply in_or_app. right. now left.
    + intros Hp. apply in_app_or in Hp. destruct Hp as [Hp|[<-|[]]]; auto.
      exists (send_image sid d). split; [|reflexivity].
      apply in_or_app. right. now left.
    + destruct (take_ticket t (inflight s)) as [[q rest]|] eqn:E; auto.
      intros Hp. apply Hfl'. apply take_ticket_sub in E. now apply E.
  - intros r Hr.
    destruct e as [sid|sid u|sid [d|]|sid [d|]|sid [d|]|sid|t up];
      try (apply Hrows'; exact Hr).
    + apply Hrows'. unfold step in Hr. now rewrite handle_typing in Hr.
    + apply Hrows'. unfold step in Hr. now rewrite handle_disconnect in Hr.
    + unfold step in Hr.
      destruct (db_done_cases s t up)
        as [[E Hh]|[(p & rest & rows & E & Hrun & Hh)|(p & rest & E & _ & Hh)]];
        rewrite Hh in Hr; simpl in Hr; auto.
      destruct (db_run_Some _ _ _ _ Hrun) as (_ & _ & ->).
      apply in_app_or in Hr. destruct Hr as [Hr|[<-|[]]]; auto.
      apply take_ticket_length in E. destruct E as [Hp _].
      exists (stmt p), (captured_timestamp p). split; auto.
  - intros room pk Hin Hd.
    destruct (delivery_step s e room pk Hin Hd)
      as (t & up & p & rest & _ & Ht & _ & _ & -> & _ & _).
    apply take_ticket_length in Ht. destruct Ht as [Hp _].
    exists (stmt p), (captured_timestamp p). split; auto.
Qed.

Lemma origin_run es :
  forall hist s,
    (forall p, In p (inflight s) ->
               sent_in hist (stmt p) (captured_timestamp p)) ->
    (forall r, In r (messages s) ->
               exists st ts, sent_in hist st ts /\ r = Db.row_of st) ->
    (forall r, In r (messages (final es s)) ->
               exists st ts, sent_in (hist ++ es) st ts /\ r = Db.row_of st)
    /\ (forall room pk,
           In (EmitTo room pk) (trace es s) ->
           is_delivery pk = true ->
           exists st ts, sent_in (hist ++ es) st ts /\ pk = delivery_of st ts).
Proof.
  induction es as [|e es IH]; intros hist s Hfl Hrows.
  - rewrite app_nil_r. split; [exact Hrows|]. intros room pk [].
  - destruct (origin_step hist s e Hfl Hrows) as (Hfl1 & Hrows1 & Hout).
    destruct (IH (hist ++ [e]) (step s e) Hfl1 Hrows1) as [Hr Hd].
    rewrite <- app_assoc in Hr, Hd. simpl in Hr, Hd.
    rewrite final_cons, trace_cons. split; [exact Hr|].
    intros room pk Hin Hdel. apply in_app_or in Hin. destruct Hin as [Hin|Hin].
    + destruct (Hout room pk Hin Hdel) as (st & ts & Hs & ->).
      exists st, ts. split; auto. now apply sent_in_app_l.
    + eauto.
Qed.



(** Every row of [messages] after a run from the initial state is the row
    of a [send_message] or [send_image] event received in that run: the
    socket side stores nothing else. *)
Theorem rows_come_from_sends :
  forall es row,
    In row (messages (final es init)) ->
    exists e st ts,
      In e es /\ stmt_of_event e = Some (st, ts) /\ row = Db.row_of st.
Proof.
  intros es row Hin.
  destruct (origin_run es [] init) as [H _].
  - intros p [].
  - intros r [].
  - destruct (H row Hin) as (st & ts & (e & He & Hst) & ->).
    exists e, st, ts. auto.
Qed.


(** ** Completions in either order *)

Lemma db_done_as_completion s t up :
  handle (db_done t up) s =
  match take_ticket t (inflight s) with
  | None => (tt, s, [])
  | Some (p, rest) =>
      (tt,
       mkState (onlineUsers s)
         (messages s ++ fst (completion (onlineUsers s) p up)) rest
         (next_ticket s),
       snd (completion (onlineUsers s) p up))
  end.
Proof.
  destruct (db_done_cases s t up)
    as [[E ->]|[(p & rest & rows & E & Hrun & ->)|(p & rest & E & Hrun & ->)]];
    rewrite E; auto; unfold completion.
  - destruct (db_run_Some _ _ _ _ Hrun) as (-> & Hnn & ->).
    unfold Db.run. rewrite Hnn. reflexivity.
  - assert (Hnil : Db.run up (stmt p) [] = None).
    { unfold Db.run in *.
      destruct (up && Db.not_null_ok (Db.row_of (stmt p)));
        [discriminate|reflexivity]. }
    rewrite Hnil. simpl. now rewrite app_nil_r.
Qed.

Lemma take_ticket_other_None t1 t2 ps p rest :
  take_ticket t2 ps = Some (p, rest) ->
  take_ticket t1 ps = None ->
  take_ticket t1 rest = None.
Proof.
  revert p rest. induction ps as [|a ps IH]; simpl; intros p rest;
    [discriminate|].
  destruct (Nat.eqb (ticket a) t2).
  - intros [= <- <-]. destruct (Nat.eqb (ticket a) t1); [discriminate|].
    now destruct (take_ticket t1 ps) as [[q r]|].
  - destruct (take_ticket t2 ps) as [[q r]|]; [|discriminate].
    intros [= <- <-]. simpl.
    destruct (Nat.eqb (ticket a) t1); [discriminate|].
    destruct (take_ticket t1 ps) as [[q' r']|] eqn:E1; [discriminate|].
    intros _. now rewrite (IH q r eq_refl eq_refl).
Qed.

Lemma take_ticket_commute t1 t2 ps p1 r1 p2 r2 :
  t1 <> t2 ->
  take_ticket t1 ps = Some (p1, r1) ->
  take_ticket t2 ps = Some (p2, r2) ->
  exists r12,
    take_ticket t2 r1 = Some (p2, r12) /\ take_ticket t1 r2 = Some (p1, r12).
Proof.
  intros Hne. revert p1 r1 p2 r2.
  induction ps as [|a ps IH]; simpl; intros p1 r1 p2 r2; [discriminate|].
  destruct (Nat.eqb_spec (ticket a) t1) as [E1|E1];
    destruct (Nat.eqb_spec (ticket a) t2) as [E2|E2].
  - congruence.
  - intros [= <- <-].
    destruct (take_ticket t2 ps) as [[q r]|]; [|discriminate].
    intros [= <- <-]. exists r. split; auto.
    simpl. destruct (Nat.eqb_spec (ticket a) t1); [reflexivity|contradiction].
  - destruct (take_ticket t1 ps) as [[q r]|] eqn:T1; [|discriminate].
    intros [= <- <-] [= <- <-]. exists r. split; auto.
    simpl. destruct (Nat.eqb_spec (ticket a) t2); [reflexivity|contradiction].
  - destruct (take_ticket t1 ps) as [[q1 s1]|] eqn:T1; [|discriminate].
    destruct (take_ticket t2 ps) as [[q2 s2]|] eqn:T2; [|discriminate].
    intros [= <- <-] [= <- <-].
    destruct (IH q1 s1 q2 s2 eq_refl eq_refl) as (r12 & H2 & H1).
    exists (a :: r12). simpl.
    destruct (Nat.eqb_spec (ticket a) t1); [contradiction|].
    destruct (Nat.eqb_spec (ticket a) t2); [contradiction|].
    now rewrite H1, H2.
Qed.

(** Two in-flight statements may complete in either order.  The order
    decides nothing but the order of the rows and of the outputs: both
    orders end with the same [onlineUsers], the same statements still in
    flight, the same rows up to order and the same outputs up to order. *)
Theorem completions_commute :
  forall s t1 up1 t2 up2,
    t1 <> t2 ->
    let sa := final [db_done t1 up1; db_done t2 up2] s in
    let sb := final [db_done t2 up2; db_done t1 up1] s in
    onlineUsers sa = onlineUsers sb
    /\ inflight sa = inflight sb
    /\ next_ticket sa = next_ticket sb
    /\ Permutation (messages sa) (messages sb)
    /\ Permutation (trace [db_done t1 up1; db_done t2 up2] s)
         (trace [db_done t2 up2; db_done t1 up1] s).
Proof.
  intros s t1 up1 t2 up2 Hne sa sb. subst sa sb.
  unfold final, trace. simpl. unfold step, outputs.
  rewrite (db_done_as_completion s t1), (db_done_as_completion s t2).
  destruct (take_ticket t1 (inflight s)) as [[p1 r1]|] eqn:E1;
    destruct (take_ticket t2 (inflight s)) as [[p2 r2]|] eqn:E2;
    cbn [fst snd]; rewrite !db_done_as_completion;
    cbn [fst snd inflight onlineUsers messages next_ticket].
  - destruct (take_ticket_commute t1 t2 _ _ _ _ _ Hne E1 E2)
      as (r12 & H2 & H1).
    rewrite H1, H2. simpl.
    rewrite !app_nil_r. repeat split; auto.
    + rewrite <- !app_assoc. apply Permutation_app_head.
      apply Permutation_app_comm.
    + apply Permutation_app_comm.
  - rewrite E1, (take_ticket_other_None t2 t1 _ _ _ E1 E2). simpl.
    rewrite !app_nil_r. repeat split; auto.
  - rewrite E2, (take_ticket_other_None t1 t2 _ _ _ E2 E1). simpl.
    rewrite !app_nil_r. repeat split; auto.
  - rewrite E1, E2. simpl. repeat split; auto.
Qed.

End MachineFacts.

(** * Sample runs *)

#[local] Existing Instance sample_affinity.

Lemma C1_successful_send_persists_row_witness :
  exists row,
    messages
      (step (final [user_login "H2" (VNum 9)]
               (step init (send_message "H1" hi_from_5_to_9)))
         (db_done 0 true))
    = messages (final [user_login "H2" (VNum 9)]
                  (step init (send_message "H1" hi_from_5_to_9))) ++ [row]
    /\ Db.sender_id row = Db.Integer 5
    /\ Db.receiver_id row = Db.Integer 9
    /\ Db.message row = Db.Text "hi"
    /\ Db.image_data row = Db.Null.
Proof.
  destruct (proj1
              (C1_successful_send_persists_row init "H1"%string hi_from_5_to_9
                 [user_login "H2" (VNum 9)] true reach_init eq_refl)
              [Db.mkRow (Db.Integer 5) (Db.Integer 9) (Db.Text "hi") Db.Null]
              eq_refl)
    as (row & Hrows & _ & _ & _ & Himg & Hs & Hr & Hm).
  exists row. split; [exact Hrows|].
  split; [exact (Hs 5%Z eq_refl eq_refl)|].
  split; [exact (Hr 9%Z eq_refl eq_refl)|].
  split; [exact (Hm "hi"%string eq_refl)|exact Himg].
Defined.

(** C1 as specified does not hold: a [send_message] event whose sender id
    is the string 5 and whose text is the number 42 is persisted, but the
    row holds the integer 5 and the text 42, not the values as they were
    sent. *)
Lemma C1_row_holds_converted_values :
  messages
    (final [send_message "H1" text_id_number_body; db_done 0 true] init)
  = [Db.mkRow (Db.Integer 5) (Db.Integer 9) (Db.Text "42") Db.Null]
  /\ Db.Integer 5 <> Db.as_sent (senderId text_id_number_body)
  /\ Db.Text "42" <> Db.as_sent (message text_id_number_body).
Proof.
  split; [reflexivity|]. split; discriminate.
Qed.

Lemma C2_exactly_one_delivery_when_online_witness :
  outputs
    (final [user_login "H2" (VNum 9)]
       (step init (send_image "H1" image_from_5_to_9)))
    (db_done 0 true)
  = [EmitTo "H2"
       (receive_image (VNum 5) (VStr "data:image/png;base64,AAAA")
          (VNum 1700000000001))].
Proof.
  exact (proj1
           (proj2
              (C2_exactly_one_delivery_when_online init "H1"%string
                 image_from_5_to_9 [user_login "H2" (VNum 9)] true
                 reach_init eq_refl)
              [Db.mkRow (Db.Integer 5) (Db.Integer 9) Db.Null
                 (Db.Text "data:image/png;base64,AAAA")]
              eq_refl)
           "H2"%string eq_refl eq_refl).
Defined.

Lemma C3_failed_insert_only_logged_witness :
  messages
    (step (final [user_login "H2" (VNum 9)]
             (step init (send_message "H1" hi_from_5_to_9)))
       (db_done 0 false)) = []
  /\ onlineUsers
       (step (final [user_login "H2" (VNum 9)]
                (step init (send_message "H1" hi_from_5_to_9)))
          (db_done 0 false)) = [(VNum 9, "H2"%string)]
  /\ outputs
       (final [user_login "H2" (VNum 9)]
          (step init (send_message "H1" hi_from_5_to_9)))
       (db_done 0 false) = [ConsoleLog ErrorSavingMessage].
Proof.
  exact (proj1
           (C3_failed_insert_only_logged init "H1"%string hi_from_5_to_9
              [user_login "H2" (VNum 9)] false reach_init eq_refl)
           eq_refl).
Defined.

(** C3 as specified does not hold: socket H1 logs in as user 5 and sends a
    text, the store is down, and nothing at all reaches H1 after the login
    broadcast; the error is printed on the server console only. *)
Lemma C3_failure_not_reported_to_sender :
  Db.run false (message_stmt hi_from_5_to_9)
    (messages (final [user_login "H1" (VNum 5);
                      send_message "H1" hi_from_5_to_9] init)) = None
  /\ trace [send_message "H1" hi_from_5_to_9; db_done 0 false]
       (final [user_login "H1" (VNum 5)] init)
     = [ConsoleLog ErrorSavingMessage]
  /\ ~ (exists o,
          In o (trace [send_message "H1" hi_from_5_to_9; db_done 0 false]
                  (final [user_login "H1" (VNum 5)] init))
          /\ reaches "H1" o = true).
Proof.
  split; [reflexivity|]. split; [reflexivity|].
  intros (o & Hin & Hreach). simpl in Hin.
  destruct Hin as [<-|[]]. discriminate Hreach.
Qed.

Lemma C4_payload_is_not_validated_witness :
  outputs init (send_message "H1" both_from_5_to_9) = []
  /\ messages
       (step (final [] (step init (send_message "H1" nothing_from_5_to_9)))
          (db_done 0 true))
     = [Db.mkRow (Db.Integer 5) (Db.Integer 9) Db.Null Db.Null].
Proof.
  split.
  - exact (proj1 (proj1 (C4_payload_is_not_validated init "H1"%string
                           both_from_5_to_9))).
  - exact (proj2
             (proj1 (proj2 (proj2 (C4_payload_is_not_validated init
                                     "H1"%string nothing_from_5_to_9)))
                [] true
                [Db.mkRow (Db.Integer 5) (Db.Integer 9) Db.Null Db.Null]
                reach_init eq_refl eq_refl)
             eq_refl).
Defined.

(** C4 as specified does not hold: socket H1 logs in as user 5 and sends a
    [send_message] event with neither [message] nor [imageData].  Nothing
    reaches H1, the INSERT goes to the store, and a row with both payload
    columns NULL is written.  An event with both fields is written too. *)
Lemma C4_malformed_payload_is_written :
  messages
    (final [user_login "H1" (VNum 5);
            send_message "H1" nothing_from_5_to_9; db_done 0 true] init)
  = [Db.mkRow (Db.Integer 5) (Db.Integer 9) Db.Null Db.Null]
  /\ messages
       (final [user_login "H1" (VNum 5);
               send_message "H1" both_from_5_to_9; db_done 0 true] init)
     = [Db.mkRow (Db.Integer 5) (Db.Integer 9) (Db.Text "hi") Db.Null]
  /\ trace [send_message "H1" nothing_from_5_to_9; db_done 0 true]
       (final [user_login "H1" (VNum 5)] init)
     = [ConsoleLog (MessageSavedForOfflineUser (VNum 9))]
  /\ ~ (exists o,
          In o (trace [send_message "H1" nothing_from_5_to_9; db_done 0 true]
                  (final [user_login "H1" (VNum 5)] init))
          /\ reaches "H1" o = true).
Proof.
  split; [reflexivity|]. split; [reflexivity|]. split; [reflexivity|].
  intros (o & Hin & Hreach). simpl in Hin.
  destruct Hin as [<-|[]]. discriminate Hreach.
Qed.

Lemma C5_last_login_wins_witness :
  JsMap.get (VNum 9)
    (onlineUsers
       (step (final [] (step init (user_login "H1" (VNum 9))))
          (user_login "H2" (VNum 9)))) = Some "H2"%string
  /\ exists pk,
      EmitTo "H2"
        (receive_message (VNum 5) (VStr "hi") (VNum 1700000000000))
      = EmitTo "H2" pk.
Proof.
  pose proof (C5_last_login_wins init (VNum 9) "H1"%string "H2"%string []
                [disconnect "H1"; send_message "H3" hi_from_5_to_9]
                reach_init eq_refl) as H.
  split.
  - exact (proj1 H).
  - exact (proj2 (proj2 H) (db_done 0 true) _ eq_refl (or_introl eq_refl)
             eq_refl).
Defined.

Lemma C6_presence_snapshot_witness :
  (exists ks,
      outputs (final [user_login "H1" (VNum 9)] init)
        (disconnect "H1")
      = [EmitAll (online_users ks); ConsoleLog (UserDisconnected "H1")]
      /\ ~ In (VNum 9) ks)
  /\ (exists ks,
        outputs
          (final [user_login "H2" (VNum 9)]
             (step init (user_login "H1" (VNum 9))))
          (disconnect "H1")
        = [EmitAll (online_users ks); ConsoleLog (UserDisconnected "H1")]
        /\ In (VNum 9) ks).
Proof.
  pose proof (C6_presence_snapshot init "H1"%string (VNum 9) reach_init) as H.
  split.
  - refine (proj1 (proj2 H) [] eq_refl _).
    intros B HB. simpl in HB. injection HB as <-. reflexivity.
  - refine (proj2 (proj2 H) [user_login "H2" (VNum 9)] "H2"%string eq_refl _).
    discriminate.
Defined.

(** C6 as specified does not hold: user 7 logs in on socket H, then user 9
    logs in on the same socket, then H disconnects.  User 9 never logged in
    anywhere else, yet the broadcast after the disconnect still lists 9. *)
Lemma C6_snapshot_keeps_second_user_of_socket :
  trace [user_login "H" (VNum 7); user_login "H" (VNum 9); disconnect "H"] init
  = [EmitAll (online_users [VNum 7]);
     EmitAll (online_users [VNum 7; VNum 9]);
     EmitAll (online_users [VNum 9]);
     ConsoleLog (UserDisconnected "H")]
  /\ JsMap.get (VNum 9)
       (onlineUsers
          (final [user_login "H" (VNum 7); user_login "H" (VNum 9);
                  disconnect "H"] init)) = Some "H"%string.
Proof. split; reflexivity. Qed.

(** * Typing notices *)

(** C7, as the code has it.  A typing notice that carries an object
    changes nothing in the server state (no row, no in-flight statement, no
    change of [onlineUsers]) and does not throw.  If the receiver id has an
    entry in [onlineUsers], exactly one [user_typing] packet with the sender
    id goes to the socket id stored there; if it has none, nothing is sent
    and nothing is printed.  A typing event that arrives without an object
    makes the handler throw on [data.receiverId]: the state is untouched and
    nothing is sent. *)
Theorem C7_typing_forwarded_or_dropped :
  forall s sid,
    (forall d : Data,
        step s (typing sid d) = s
        /\ existsb is_throw (outputs s (typing sid d)) = false
        /\ (forall room,
              JsMap.get (receiverId d) (onlineUsers s) = Some room ->
              nonempty room = true ->
              outputs s (typing sid d)
              = [EmitTo room (user_typing (senderId d))])
        /\ (JsMap.get (receiverId d) (onlineUsers s) = None ->
            outputs s (typing sid d) = []))
    /\ (step s (typing sid NoObject) = s
        /\ outputs s (typing sid NoObject) = [Throw TypeError]).
Proof.
  intros s sid. split; [|split; reflexivity].
  intros d. unfold step, outputs. rewrite handle_typing. simpl.
  split; [reflexivity|]. split; [|split].
  - now destruct (truthy (JsMap.get (receiverId d) (onlineUsers s))).
  - intros room -> Hne. now rewrite truthy_Some.
  - now intros ->.
Qed.

Lemma C7_typing_forwarded_or_dropped_witness :
  outputs (final [user_login "H2" (VNum 9)] init) (typing "H1" hi_from_5_to_9)
  = [EmitTo "H2" (user_typing (VNum 5))]
  /\ outputs init (typing "H1" hi_from_5_to_9) = [].
Proof.
  split.
  - exact (proj1 (proj2 (proj2 (proj1 (C7_typing_forwarded_or_dropped
                                         (final [user_login "H2" (VNum 9)] init)
                                         "H1"%string) hi_from_5_to_9)))
             "H2"%string eq_refl eq_refl).
  - exact (proj2 (proj2 (proj2 (proj1 (C7_typing_forwarded_or_dropped init
                                         "H1"%string) hi_from_5_to_9)))
             eq_refl).
Defined.

(** C7 as specified does not hold: a client that is logged in emits
    [typing] without an object.  The handler throws a TypeError, so the
    operation fails. *)
Lemma C7_typing_without_object_throws :
  outputs (final [user_login "H1" (VNum 5)] init) (typing "H1" NoObject)
  = [Throw TypeError]
  /\ existsb is_throw
       (outputs (final [user_login "H1" (VNum 5)] init) (typing "H1" NoObject))
     = true.
Proof. split; reflexivity. Qed.


Lemma C9_disconnect_of_unbound_socket_witness :
  onlineUsers
    (step (final [connection "H3"; user_login "H2" (VNum 9)] init)
       (disconnect "H3"))
  = [(VNum 9, "H2"%string)]
  /\ outputs (final [connection "H3"; user_login "H2" (VNum 9)] init)
       (disconnect "H3")
     = [EmitAll (online_users [VNum 9]); ConsoleLog (UserDisconnected "H3")].
Proof.
  pose proof (C9_disconnect_of_unbound_socket
                [connection "H3"; user_login "H2" (VNum 9)] "H3"%string
                eq_refl) as H.
  exact (conj (proj1 H) (proj2 (proj2 H))).
Defined.

Lemma C10_disconnect_removes_first_match_only_witness :
  onlineUsers
    (step (final [user_login "H" (VNum 7); user_login "H" (VNum 9)] init)
       (disconnect "H"))
  = [] ++ [(VNum 9, "H"%string)]
  /\ (JsMap.get (VNum 7)
        (onlineUsers
           (step (final [user_login "H" (VNum 7); user_login "H" (VNum 9)] init)
              (disconnect "H"))) = Some "H"%string
      \/ JsMap.get (VNum 9)
           (onlineUsers
              (step
                 (final [user_login "H" (VNum 7); user_login "H" (VNum 9)] init)
                 (disconnect "H"))) = Some "H"%string).
Proof.
  pose proof (C10_disconnect_removes_first_match_only
                (final [user_login "H" (VNum 7); user_login "H" (VNum 9)] init)
                "H"%string (reachable_final _ _ reach_init)) as H.
  split.
  - refine (proj1 (proj2 (proj2 H)) [] (VNum 7) [(VNum 9, "H"%string)]
              eq_refl _).
    simpl. tauto.
  - refine (proj2 (proj2 (proj2 H)) (VNum 7) (VNum 9) _ eq_refl eq_refl).
    discriminate.
Defined.

Lemma broadcast_is_current_registry_witness :
  [VNum 9] =
  JsMap.keys
    (onlineUsers
       (step (final [user_login "H1" (VNum 7); user_login "H2" (VNum 9)] init)
          (disconnect "H1")))
  /\ NoDup [VNum 9].
Proof.
  pose proof (broadcast_is_current_registry
                (final [user_login "H1" (VNum 7); user_login "H2" (VNum 9)] init)
                (disconnect "H1") [VNum 9]
                (reachable_final _ _ reach_init) (or_introl eq_refl)) as H.
  exact (conj (proj1 H) (proj1 (proj2 H))).
Defined.

Lemma binding_changes_only_by_own_events_witness :
  (exists sid, disconnect "H2" = user_login sid (VNum 9))
  \/ (exists sid,
        disconnect "H2" = disconnect sid
        /\ JsMap.get (VNum 9)
             (onlineUsers (final [user_login "H2" (VNum 9)] init)) = Some sid
        /\ JsMap.get (VNum 9)
             (onlineUsers
                (step (final [user_login "H2" (VNum 9)] init)
                   (disconnect "H2"))) = None).
Proof.
  apply (binding_changes_only_by_own_events
           (final [user_login "H2" (VNum 9)] init) (disconnect "H2") (VNum 9)
           (reachable_final _ _ reach_init)).
  discriminate.
Defined.

Lemma login_snapshot_order_witness :
  outputs (final [user_login "H1" (VNum 7); user_login "H2" (VNum 9)] init)
    (user_login "H3" (VNum 7))
  = [EmitAll (online_users [VNum 7; VNum 9])]
  /\ outputs (final [user_login "H1" (VNum 7)] init) (user_login "H2" (VNum 9))
     = [EmitAll (online_users ([VNum 7] ++ [VNum 9]))].
Proof.
  split.
  - refine (proj1 (login_snapshot_order
                     (final [user_login "H1" (VNum 7); user_login "H2" (VNum 9)]
                        init) "H3"%string (VNum 7)) _).
    simpl. auto.
  - refine (proj2 (login_snapshot_order (final [user_login "H1" (VNum 7)] init)
                     "H2"%string (VNum 9)) _).
    simpl. intros [H|[]]. discriminate H.
Defined.

Lemma login_then_disconnect_restores_witness :
  final [user_login "H2" (VNum 9); disconnect "H2"]
    (final [user_login "H1" (VNum 7)] init)
  = final [user_login "H1" (VNum 7)] init.
Proof.
  apply (login_then_disconnect_restores
           (final [user_login "H1" (VNum 7)] init) "H2"%string (VNum 9)).
  - simpl. intros [H|[]]. discriminate H.
  - simpl. intros [H|[]]. discriminate H.
Defined.

Lemma registry_entries_come_from_logins_witness :
  In (user_login "H2" (VNum 9))
    [user_login "H1" (VNum 9); send_message "H1" hi_from_5_to_9;
     user_login "H2" (VNum 9)].
Proof.
  exact (registry_entries_come_from_logins
           [user_login "H1" (VNum 9); send_message "H1" hi_from_5_to_9;
            user_login "H2" (VNum 9)]
           (VNum 9) "H2"%string (or_introl eq_refl)).
Defined.


Lemma rows_come_from_sends_witness :
  exists e st ts,
    In e [send_image "H1" image_from_5_to_9; db_done 0 true]
    /\ stmt_of_event e = Some (st, ts)
    /\ Db.mkRow (Db.Integer 5) (Db.Integer 9) Db.Null
         (Db.Text "data:image/png;base64,AAAA")
       = Db.row_of st.
Proof.
  exact (rows_come_from_sends
           [send_image "H1" image_from_5_to_9; db_done 0 true]
           (Db.mkRow (Db.Integer 5) (Db.Integer 9) Db.Null
              (Db.Text "data:image/png;base64,AAAA"))
           (or_introl eq_refl)).
Defined.

Lemma completions_commute_witness :
  Permutation
    (messages
       (final [db_done 0 true; db_done 1 true]
          (final [send_message "H1" hi_from_5_to_9;
                  send_image "H1" image_from_5_to_9] init)))
    (messages
       (final [db_done 1 true; db_done 0 true]
          (final [send_message "H1" hi_from_5_to_9;
                  send_image "H1" image_from_5_to_9] init))).
Proof.
  refine (proj1 (proj2 (proj2 (proj2
            (completions_commute
               (final [send_message "H1" hi_from_5_to_9;
                       send_image "H1" image_from_5_to_9] init)
               0 true 1 true _))))).
  discriminate.
Defined.

(** * Accounts *)

Module UsersFacts.
Import Users.
Local Open Scope Z_scope.

Lemma next_id_above t r : In r (rows t) -> id r < next_id t.
Proof.
  unfold next_id. generalize (seq t). induction (rows t) as [|a l IH]; simpl.
  - contradiction.
  - intros z [<-|Hin]; [lia|]. specialize (IH z Hin). lia.
Qed.

Lemma taken_false u t :
  taken u t = false -> ~ In u (map username (rows t)).
Proof.
  unfold taken. induction (rows t) as [|a l IH]; simpl; [tauto|].
  intros Hor. apply orb_false_iff in Hor. destruct Hor as [Ha Hl].
  apply String.eqb_neq in Ha. intros [?|?]; [congruence|now apply IH].
Qed.

Lemma taken_true u t :
  taken u t = true -> In u (map username (rows t)).
Proof.
  unfold taken. induction (rows t) as [|a l IH]; simpl; [discriminate|].
  intros Hor. apply orb_true_iff in Hor. destruct Hor as [Ha|Hl].
  - apply String.eqb_eq in Ha. now left.
  - right. now apply IH.
Qed.

Lemma insert_Some u n p b t i t' :
  insert u n p b t = Some (i, t') ->
  exists u' n' p',
    u = Some u' /\ n = Some n' /\ p = Some p'
    /\ taken u' t = false
    /\ i = next_id t
    /\ t' = mkTable (rows t ++ [mkRow i u' n' p' None b]) i.
Proof.
  unfold insert. destruct u as [u'|], n as [n'|], p as [p'|]; try discriminate.
  destruct (taken u' t) eqn:E; [discriminate|].
  intros [= <- <-]. exists u', n', p'. repeat split; auto.
Qed.

Lemma users_wf_empty : wf empty.
Proof. split; constructor. Qed.

Lemma NoDup_snoc {A : Type} (l : list A) (a : A) :
  NoDup l -> ~ In a l -> NoDup (l ++ [a]).
Proof.
  intros Hl Ha. induction Hl as [|x l Hx Hl IH]; simpl.
  - repeat constructor. tauto.
  - constructor.
    + intros Hin. apply in_app_or in Hin. simpl in *. intuition congruence.
    + apply IH. simpl in Ha. tauto.
Qed.

Lemma users_wf_insert u n p b t i t' :
  wf t -> insert u n p b t = Some (i, t') -> wf t'.
Proof.
  intros [Hu Hi] Hins.
  destruct (insert_Some _ _ _ _ _ _ _ Hins)
    as (u' & n' & p' & -> & -> & -> & Htaken & -> & ->).
  unfold wf. simpl. rewrite !map_app. simpl. split.
  - apply NoDup_snoc; auto. now apply taken_false.
  - apply NoDup_snoc; auto. intros Hin. apply in_map_iff in Hin.
    destruct Hin as (r & Hr & Hin). apply next_id_above in Hin. lia.
Qed.

Lemma NoDup_map_filter {A B : Type} (f : A -> B) (g : A -> bool) (l : list A) :
  NoDup (map f l) -> NoDup (map f (filter g l)).
Proof.
  induction l as [|a l IH]; simpl; intros Hnd; [constructor|].
  inversion Hnd as [|? ? Hn Hl]; subst.
  destruct (g a); simpl; auto.
  constructor; auto. intros Hin. apply Hn.
  apply in_map_iff in Hin. destruct Hin as (x & Hx & Hin).
  apply filter_In in Hin. apply in_map_iff. exists x. tauto.
Qed.

Lemma users_wf_delete i t : wf t -> wf (delete_by_id i t).
Proof.
  intros [Hu Hi]. destruct i as [i|]; [|now split].
  unfold wf. simpl. split; now apply NoDup_map_filter.
Qed.

Lemma insert_or_ignore_free u n p b t :
  taken u t = false ->
  insert (Some u) (Some n) (Some p) (Some b) t
  = Some (next_id t, insert_or_ignore u n p b t).
Proof. intros Hfree. unfold insert, insert_or_ignore. now rewrite Hfree. Qed.

Lemma insert_or_ignore_taken u n p b t :
  taken u t = true ->
  insert_or_ignore u n p b t = mkTable (rows t) (next_id t).
Proof. intros Htaken. unfold insert_or_ignore. now rewrite Htaken. Qed.

Lemma users_wf_apply w t : wf t -> wf (apply w t).
Proof.
  intros Hwf. destruct w as [u n p b|u n p b|i]; simpl.
  - destruct (insert u n p b t) as [[i t']|] eqn:E; auto.
    eapply users_wf_insert; eauto.
  - destruct (taken u t) eqn:E.
    + now rewrite insert_or_ignore_taken.
    + eapply users_wf_insert; eauto. now apply insert_or_ignore_free.
  - now apply users_wf_delete.
Qed.

Lemma users_wf_apply_all ws : forall t, wf t -> wf (apply_all ws t).
Proof.
  unfold apply_all. induction ws as [|w ws IH]; simpl; intros t Hwf; auto.
  apply IH. now apply users_wf_apply.
Qed.

Lemma users_wf_reachable ws : wf (apply_all ws empty).
Proof. apply users_wf_apply_all, users_wf_empty. Qed.

(** With unique usernames the SELECT by username finds the one row. *)
Lemma get_by_username_In t r :
  wf t -> In r (rows t) -> get_by_username (Some (username r)) t = Some r.
Proof.
  intros [Hu _]. unfold get_by_username.
  induction (rows t) as [|a l IH]; simpl; [contradiction|].
  simpl in Hu. inversion Hu as [|? ? Hn Hl]; subst.
  intros [->|Hin].
  - now rewrite String.eqb_refl.
  - destruct (String.eqb_spec (username a) (username r)) as [E|]; auto.
    exfalso. apply Hn. rewrite E. now apply in_map.
Qed.

Lemma get_by_id_In t r :
  wf t -> In r (rows t) -> get_by_id (Some (id r)) t = Some r.
Proof.
  intros [_ Hi]. unfold get_by_id.
  induction (rows t) as [|a l IH]; simpl; [contradiction|].
  simpl in Hi. inversion Hi as [|? ? Hn Hl]; subst.
  intros [->|Hin].
  - now rewrite Z.eqb_refl.
  - destruct (Z.eqb_spec (id a) (id r)) as [E|]; auto.
    exfalso. apply Hn. rewrite E. now apply in_map.
Qed.

Lemma get_by_username_Some u t r :
  get_by_username u t = Some r -> In r (rows t) /\ u = Some (username r).
Proof.
  destruct u as [u|]; simpl; [|discriminate].
  intros Hf. apply find_some in Hf. destruct Hf as [Hin Heq].
  apply String.eqb_eq in Heq. now subst.
Qed.

Lemma get_by_id_Some i t r :
  get_by_id i t = Some r -> In r (rows t) /\ i = Some (id r).
Proof.
  destruct i as [i|]; simpl; [|discriminate].
  intros Hf. apply find_some in Hf. destruct Hf as [Hin Heq].
  apply Z.eqb_eq in Heq. now subst.
Qed.

Lemma row_survives w t r :
  In r (rows t) -> deletes (id r) w = false -> In r (rows (apply w t)).
Proof.
  intros Hin Hd. destruct w as [u n p b|u n p b|[i|]]; simpl; auto.
  - destruct (insert u n p b t) as [[i t']|] eqn:E; auto.
    destruct (insert_Some _ _ _ _ _ _ _ E)
      as (u' & n' & p' & _ & _ & _ & _ & _ & ->).
    simpl. apply in_or_app. now left.
  - unfold insert_or_ignore. destruct (taken u t); simpl; auto.
    apply in_or_app. now left.
  - simpl in Hd. apply filter_In. split; auto.
    rewrite Z.eqb_sym. now rewrite Hd.
Qed.

Lemma row_survives_all ws : forall t r,
  In r (rows t) -> existsb (deletes (id r)) ws = false ->
  In r (rows (apply_all ws t)).
Proof.
  unfold apply_all. induction ws as [|w ws IH]; simpl; intros t r Hin Hd; auto.
  apply orb_false_iff in Hd. destruct Hd as [Hw Hws].
  apply IH; auto. now apply row_survives.
Qed.

End UsersFacts.

Section AccountsFacts.

Context `{L : Libraries}.

Local Open Scope Z_scope.

Lemma post_register_success body salt up t i t' :
  post_register body salt up t = (RegistrationSuccessful i, t') ->
  falsy (Body.username body) = false
  /\ falsy (Body.nickname body) = false
  /\ falsy (Body.password body) = false
  /\ Body.confirmPassword body = Body.password body
  /\ exists u n h,
      sql_text (Body.username body) = Some u
      /\ sql_text (Body.nickname body) = Some n
      /\ hashSync salt (Body.password body) = Some h
      /\ Users.insert (Some u) (Some n) (Some h) None t = Some (i, t').
Proof.
  unfold post_register.
  destruct (falsy (Body.username body)); [discriminate|].
  destruct (falsy (Body.nickname body)); [discriminate|].
  destruct (falsy (Body.password body)); [discriminate|]. simpl.
  destruct (value_eqb_spec (Body.password body) (Body.confirmPassword body))
    as [Heq|]; [|discriminate]. simpl.
  destruct (hashSync salt (Body.password body)) as [h|]; [|discriminate].
  destruct up; [|discriminate].
  destruct (Users.insert (sql_text (Body.username body))
              (sql_text (Body.nickname body)) (Some h) None t)
    as [[j t1]|] eqn:E; [|discriminate].
  intros [= -> ->].
  destruct (UsersFacts.insert_Some _ _ _ _ _ _ _ E)
    as (u & n & p & Hu & Hn & [= <-] & _).
  rewrite Hu, Hn in E.
  repeat split; auto. exists u, n, h. auto.
Qed.

Lemma post_register_failure body salt up t r t' :
  post_register body salt up t = (r, t') ->
  (forall i, r <> RegistrationSuccessful i) ->
  t' = t.
Proof.
  unfold post_register.
  destruct (falsy (Body.username body) || falsy (Body.nickname body)
            || falsy (Body.password body)); [now intros [= <- <-]|].
  destruct (negb (value_eqb (Body.password body) (Body.confirmPassword body)));
    [now intros [= <- <-]|].
  destruct (hashSync salt (Body.password body)) as [h|]; [|now intros [= <- <-]].
  destruct (if up then _ else None) as [[j t1]|]; [|now intros [= <- <-]].
  intros [= <- <-] Hne. now destruct (Hne j).
Qed.

(** [/register] writes only what passed its checks.  A request that is not
    answered with "Registration successful" leaves [users] as it was.  One
    that is had a username, a nickname and a password that are all truthy,
    and a [confirmPassword] equal to the password; the table gains exactly
    one row, with the username, the nickname and the bcrypt hash, under a
    username no other row has, and the [userId] in the answer is the id of
    that row, larger than every id in the table before. *)
Theorem register_stores_validated_account :
  forall body salt up t r t',
    post_register body salt up t = (r, t') ->
    ((forall i, r <> RegistrationSuccessful i) -> t' = t)
    /\ (forall i,
          r = RegistrationSuccessful i ->
          falsy (Body.username body) = false
          /\ falsy (Body.nickname body) = false
          /\ falsy (Body.password body) = false
          /\ falsy (Body.confirmPassword body) = false
          /\ Body.confirmPassword body = Body.password body
          /\ exists u n h,
              sql_text (Body.username body) = Some u
              /\ sql_text (Body.nickname body) = Some n
              /\ hashSync salt (Body.password body) = Some h
              /\ Users.taken u t = false
              /\ Users.rows t' =
                 Users.rows t ++ [Users.mkRow i u n h None None]
              /\ (forall r0, In r0 (Users.rows t) -> Users.id r0 < i)).
Proof.
  intros body salt up t r t' Hreg. split.
  - now apply (post_register_failure body salt up t r t').
  - intros i ->.
    destruct (post_register_success _ _ _ _ _ _ Hreg)
      as (Hu & Hn & Hp & Hc & u & n & h & Hsu & Hsn & Hh & Hins).
    destruct (UsersFacts.insert_Some _ _ _ _ _ _ _ Hins)
      as (u' & n' & p' & [= <-] & [= <-] & [= <-] & Htaken & -> & ->).
    repeat split; auto.
    + now rewrite Hc.
    + exists u, n, h. repeat split; auto.
      intros r0. apply UsersFacts.next_id_above.
Qed.

(** Login after registration.  The law of bcrypt that hashes are accepted
    for the password they were made from is the one assumption. *)
Hypothesis compare_hash :
  forall salt p h, hashSync salt p = Some h -> compareSync p h = Some true.

(** An account that [/register] created can log in for as long as its row
    is not deleted: whatever other accounts are created and deleted in
    between, [/login] with the same username and password answers with the
    [userId] that [/register] returned, the stored username and nickname,
    and [isAdmin] true exactly for the username admin. *)
Theorem register_then_login :
  forall ws1 body salt up i t1 ws2 body',
    post_register body salt up (Users.apply_all ws1 Users.empty)
    = (RegistrationSuccessful i, t1) ->
    existsb (Users.deletes i) ws2 = false ->
    Body.username body' = Body.username body ->
    Body.password body' = Body.password body ->
    exists u n,
      sql_text (Body.username body) = Some u
      /\ sql_text (Body.nickname body) = Some n
      /\ post_login body' true (Users.apply_all ws2 t1)
         = LoginSuccessful i u n (String.eqb u "admin").
Proof.
  intros ws1 body salt up i t1 ws2 body' Hreg Hdel Hbu Hbp.
  destruct (post_register_success _ _ _ _ _ _ Hreg)
    as (Hu & Hn & Hp & Hc & u & n & h & Hsu & Hsn & Hh & Hins).
  exists u, n. repeat split; auto.
  assert (Hwf1 : Users.wf t1).
  { eapply UsersFacts.users_wf_insert;
      [apply UsersFacts.users_wf_reachable | exact Hins]. }
  destruct (UsersFacts.insert_Some _ _ _ _ _ _ _ Hins)
    as (u' & n' & p' & [= <-] & [= <-] & [= <-] & _ & Hi & Ht1).
  set (row := Users.mkRow i u n h None None).
  assert (Hin : In row (Users.rows (Users.apply_all ws2 t1))).
  { apply UsersFacts.row_survives_all; auto.
    rewrite Ht1. simpl. apply in_or_app. right. now left. }
  pose proof (UsersFacts.users_wf_apply_all ws2 t1 Hwf1) as Hwf2.
  pose proof (UsersFacts.get_by_username_In _ _ Hwf2 Hin) as Hget.
  unfold post_login. rewrite Hbu, Hbp, Hu, Hp. simpl.
  rewrite Hsu. change (Users.username row) with u in Hget.
  rewrite Hget. simpl.
  now rewrite (compare_hash salt _ h Hh).
Qed.

(** [isAdmin] in the answer of [/login] and the check of the [/admin/...]
    routes agree: for the [userId] that [/login] returned, the check passes
    exactly when [isAdmin] was true. *)
Theorem login_admin_flag_matches_admin_check :
  forall ws body i u n a adminId,
    post_login body true (Users.apply_all ws Users.empty)
    = LoginSuccessful i u n a ->
    integer_of_text adminId = Some i ->
    admin_access adminId true (Users.apply_all ws Users.empty) = a.
Proof.
  intros ws body i u n a adminId Hlog Hid.
  pose proof (UsersFacts.users_wf_reachable ws) as Hwf.
  unfold post_login in Hlog.
  destruct (falsy (Body.username body) || falsy (Body.password body));
    [discriminate|]. simpl in Hlog.
  destruct (Users.get_by_username (sql_text (Body.username body))
              (Users.apply_all ws Users.empty)) as [user|] eqn:E;
    [|discriminate].
  destruct (compareSync (Body.password body) (Users.password user))
    as [[|]|]; try discriminate.
  injection Hlog as <- <- <- <-.
  apply UsersFacts.get_by_username_Some in E. destruct E as [Hin _].
  unfold admin_access. rewrite Hid.
  now rewrite (UsersFacts.get_by_id_In _ _ Hwf Hin).
Qed.

Lemma same_username_same_row t r1 r2 :
  Users.wf t ->
  In r1 (Users.rows t) -> In r2 (Users.rows t) ->
  Users.username r1 = Users.username r2 ->
  r1 = r2.
Proof.
  intros Hwf H1 H2 Heq.
  pose proof (UsersFacts.get_by_username_In _ _ Hwf H1) as G1.
  pose proof (UsersFacts.get_by_username_In _ _ Hwf H2) as G2.
  rewrite Heq in G1. congruence.
Qed.

Lemma admin_access_true adminId up t :
  admin_access adminId up t = true ->
  exists user,
    In user (Users.rows t)
    /\ integer_of_text adminId = Some (Users.id user)
    /\ Users.username user = "admin"%string.
Proof.
  unfold admin_access. destruct up; [|discriminate].
  destruct (Users.get_by_id (integer_of_text adminId) t) as [user|] eqn:E;
    [|discriminate].
  intros Heq. apply String.eqb_eq in Heq.
  apply UsersFacts.get_by_id_Some in E. destruct E as [Hin Hid].
  exists user. auto.
Qed.

Lemma no_admin_row_no_access anyId up t :
  Users.taken "admin" t = false -> admin_access anyId up t = false.
Proof.
  intros Hno. destruct (admin_access anyId up t) eqn:E; auto.
  destruct (admin_access_true _ _ _ E) as (user & Hin & _ & Hname).
  apply UsersFacts.taken_false in Hno. exfalso. apply Hno.
  rewrite <- Hname. now apply in_map.
Qed.

Lemma delete_removes_username t user :
  Users.wf t ->
  In user (Users.rows t) ->
  Users.taken (Users.username user)
    (Users.delete_by_id (Some (Users.id user)) t) = false.
Proof.
  intros Hwf Hin.
  destruct (Users.taken (Users.username user)
              (Users.delete_by_id (Some (Users.id user)) t)) eqn:E; auto.
  apply UsersFacts.taken_true in E. apply in_map_iff in E.
  destruct E as (r & Hname & Hr). simpl in Hr. apply filter_In in Hr.
  destruct Hr as [Hr Hid].
  assert (r = user) by (eapply same_username_same_row; eauto).
  subst r. now rewrite Z.eqb_refl in Hid.
Qed.

Lemma taken_apply name w t :
  Users.taken name t = false ->
  Users.inserts_name name w = false ->
  Users.taken name (Users.apply w t) = false.
Proof.
  intros Hno Hw.
  destruct (Users.taken name (Users.apply w t)) eqn:E; auto.
  apply UsersFacts.taken_true in E. apply UsersFacts.taken_false in Hno.
  exfalso. destruct w as [u n p b|u n p b|[i|]]; simpl in E; auto.
  - destruct (Users.insert u n p b t) as [[i t1]|] eqn:Hins; auto.
    destruct (UsersFacts.insert_Some _ _ _ _ _ _ _ Hins)
      as (u' & n' & p' & -> & _ & _ & _ & _ & ->).
    simpl in E, Hw. rewrite map_app in E. apply in_app_or in E.
    destruct E as [E|[E|[]]]; auto.
    simpl in E. subst. now rewrite String.eqb_refl in Hw.
  - unfold Users.insert_or_ignore in E.
    destruct (Users.taken u t); simpl in E; auto.
    simpl in Hw. rewrite map_app in E. apply in_app_or in E.
    destruct E as [E|[E|[]]]; auto.
    simpl in E. subst. now rewrite String.eqb_refl in Hw.
  - apply in_map_iff in E. destruct E as (r & Hname & Hr).
    apply filter_In in Hr. apply Hno. rewrite <- Hname. apply in_map. tauto.
Qed.

Lemma taken_apply_all name ws : forall t,
  Users.taken name t = false ->
  existsb (Users.inserts_name name) ws = false ->
  Users.taken name (Users.apply_all ws t) = false.
Proof.
  unfold Users.apply_all.
  induction ws as [|w ws IH]; simpl; intros t Hno Hws; auto.
  apply orb_false_iff in Hws. destruct Hws as [Hw Hws].
  apply IH; auto. now apply taken_apply.
Qed.

(** The delete route does not spare the admin account.  When the admin
    deletes the row of its own id, the row named admin is gone, and from
    then on the check of every [/admin/...] route fails, for every id,
    until some INSERT brings a row named admin back. *)
Theorem deleting_admin_locks_admin_routes :
  forall ws adminId userId up1 up2 t' ws2 anyId up,
    delete_admin_user adminId userId up1 up2 (Users.apply_all ws Users.empty)
    = (UserDeleted, t') ->
    integer_of_text userId = integer_of_text adminId ->
    existsb (Users.inserts_name "admin") ws2 = false ->
    admin_access anyId up (Users.apply_all ws2 t') = false.
Proof.
  intros ws adminId userId up1 up2 t' ws2 anyId up Hdel Hsame Hws2.
  pose proof (UsersFacts.users_wf_reachable ws) as Hwf.
  unfold delete_admin_user in Hdel.
  destruct (admin_access adminId up1 (Users.apply_all ws Users.empty)) eqn:Ha;
    [|discriminate].
  destruct up2; [|discriminate]. injection Hdel as <-.
  destruct (admin_access_true _ _ _ Ha) as (user & Hin & Hid & Hname).
  apply no_admin_row_no_access. apply taken_apply_all; auto.
  rewrite Hsame, Hid, <- Hname. now apply delete_removes_username.
Qed.

(** Admin rights hang on the username alone: whoever gets the username
    admin through [/register] passes the check of the [/admin/...] routes
    with the [userId] that [/register] returned. *)
Theorem registering_admin_name_grants_admin_access :
  forall ws body salt up i t1 adminId,
    post_register body salt up (Users.apply_all ws Users.empty)
    = (RegistrationSuccessful i, t1) ->
    sql_text (Body.username body) = Some "admin"%string ->
    integer_of_text adminId = Some i ->
    admin_access adminId true t1 = true.
Proof.
  intros ws body salt up i t1 adminId Hreg Hname Hid.
  destruct (post_register_success _ _ _ _ _ _ Hreg)
    as (_ & _ & _ & _ & u & n & h & Hsu & _ & _ & Hins).
  assert (Hwf1 : Users.wf t1).
  { eapply UsersFacts.users_wf_insert;
      [apply UsersFacts.users_wf_reachable | exact Hins]. }
  destruct (UsersFacts.insert_Some _ _ _ _ _ _ _ Hins)
    as (u' & n' & p' & [= <-] & [= <-] & [= <-] & _ & Hi & Ht1).
  set (row := Users.mkRow i u n h None None).
  assert (Hin : In row (Users.rows t1)).
  { rewrite Ht1. simpl. apply in_or_app. right. now left. }
  unfold admin_access. rewrite Hid.
  change i with (Users.id row).
  rewrite (UsersFacts.get_by_id_In _ _ Hwf1 Hin). simpl.
  assert (u = "admin"%string) by congruence. subst u. reflexivity.
Qed.

(** After the delete route removed the row of an account, [/login] with
    the credentials that worked before answers 401 "User not found". *)
Theorem deleted_account_cannot_log_in :
  forall ws body i u n a adminId userId up1 up2 t',
    post_login body true (Users.apply_all ws Users.empty)
    = LoginSuccessful i u n a ->
    integer_of_text userId = Some i ->
    delete_admin_user adminId userId up1 up2 (Users.apply_all ws Users.empty)
    = (UserDeleted, t') ->
    post_login body true t' = Failure 401 "User not found".
Proof.
  intros ws body i u n a adminId userId up1 up2 t' Hlog Hid Hdel.
  pose proof (UsersFacts.users_wf_reachable ws) as Hwf.
  unfold delete_admin_user in Hdel.
  destruct (admin_access adminId up1 (Users.apply_all ws Users.empty));
    [|discriminate].
  destruct up2; [|discriminate]. injection Hdel as <-.
  unfold post_login in *.
  destruct (falsy (Body.username body) || falsy (Body.password body));
    [discriminate|]. simpl in *.
  destruct (Users.get_by_username (sql_text (Body.username body))
              (Users.apply_all ws Users.empty)) as [user|] eqn:E;
    [|discriminate].
  destruct (compareSync (Body.password body) (Users.password user))
    as [[|]|]; try discriminate.
  injection Hlog as <- <- <- <-.
  apply UsersFacts.get_by_username_Some in E. destruct E as [Hin Hu].
  rewrite Hid, Hu.
  pose proof (delete_removes_username _ _ Hwf Hin) as Hno.
  destruct (Users.get_by_username (Some (Users.username user))
              (Users.delete_by_id (Some (Users.id user))
                 (Users.apply_all ws Users.empty))) as [r|] eqn:E2; auto.
  apply UsersFacts.get_by_username_Some in E2. destruct E2 as [Hr [= Hname]].
  apply UsersFacts.taken_false in Hno. exfalso. apply Hno.
  rewrite Hname. now apply in_map.
Qed.

(** The seeding at start-up.  On a table that has a row named admin it
    leaves every row as it is, so a restart never resets that account; only
    the id counter moves on when the store is up.  On a table without one
    it creates the account that [/login] accepts with the username admin
    and the password 12345, as an admin. *)
Theorem seeding_creates_default_admin_once :
  forall ws salt up body h,
    let t := Users.apply_all ws Users.empty in
    (Users.taken "admin" t = true ->
     Users.rows (initializeDatabase salt up t) = Users.rows t
     /\ (Users.seq (initializeDatabase salt up t) = Users.seq t
         \/ Users.seq (initializeDatabase salt up t) = Users.next_id t))
    /\ (Users.taken "admin" t = false ->
        hashSync salt (VStr "12345") = Some h ->
        Body.username body = VStr "admin" ->
        Body.password body = VStr "12345" ->
        post_login body true (initializeDatabase salt true t)
        = LoginSuccessful (Users.next_id t) "admin" "Admin User" true).
Proof.
  intros ws salt up body h t. split.
  - intros Htaken. unfold initializeDatabase.
    destruct (hashSync salt (VStr "12345")); auto.
    destruct up; auto. simpl.
    rewrite UsersFacts.insert_or_ignore_taken by assumption. simpl. auto.
  - intros Hfree Hh Hbu Hbp.
    pose proof (UsersFacts.users_wf_reachable ws) as Hwf. fold t in Hwf.
    unfold initializeDatabase. rewrite Hh. simpl.
    pose proof (UsersFacts.insert_or_ignore_free "admin" "Admin User" h
                  "I am the admin" t Hfree) as Hins.
    set (t1 := Users.insert_or_ignore "admin" "Admin User" h
                 "I am the admin" t) in *.
    assert (Hwf1 : Users.wf t1).
    { eapply UsersFacts.users_wf_insert; eauto. }
    set (row := Users.mkRow (Users.next_id t) "admin" "Admin User" h None
                  (Some "I am the admin"%string)).
    assert (Hin : In row (Users.rows t1)).
    { unfold t1, Users.insert_or_ignore. rewrite Hfree. simpl.
      apply in_or_app. right. now left. }
    pose proof (UsersFacts.get_by_username_In _ _ Hwf1 Hin) as Hget.
    unfold post_login. rewrite Hbu, Hbp. simpl.
    change (Users.username row) with "admin"%string in Hget.
    unfold Users.get_by_username in Hget. rewrite Hget. simpl.
    now rewrite (compare_hash salt _ h Hh).
Qed.

End AccountsFacts.

Lemma sample_compare_hash :
  forall (salt : @Salt sample_libraries) p h,
    @hashSync sample_libraries salt p = Some h ->
    @compareSync sample_libraries p h = Some true.
Proof.
  intros salt p h. destruct p; simpl; try discriminate.
  intros [= <-]. now rewrite String.eqb_refl.
Qed.

Lemma register_stores_validated_account_witness :
  exists u n h,
    Users.rows (snd (@post_register sample_libraries alice_body tt true
                       Users.empty))
    = Users.rows Users.empty ++ [Users.mkRow 1 u n h None None].
Proof.
  destruct (proj2 (@register_stores_validated_account sample_libraries
                     alice_body tt true Users.empty _ _ eq_refl) 1%Z eq_refl)
    as (_ & _ & _ & _ & _ & u & n & h & _ & _ & _ & _ & Hrows & _).
  exists u, n, h. exact Hrows.
Defined.

Lemma register_then_login_witness :
  exists u n,
    @sql_text sample_libraries (Body.username alice_body) = Some u
    /\ @sql_text sample_libraries (Body.nickname alice_body) = Some n
    /\ @post_login sample_libraries
         (Body.mk (VStr "alice") VUndef (VStr "s3cret") VUndef) true
         (Users.apply_all
            [Users.Insert (Some "bob"%string) (Some "Bob"%string)
               (Some "hash:pw"%string) None;
             Users.DeleteWhereId (Some 2%Z)]
            (snd (@post_register sample_libraries alice_body tt true
                    Users.empty)))
       = LoginSuccessful 1 u n (String.eqb u "admin").
Proof.
  exact (@register_then_login sample_libraries sample_compare_hash
           [] alice_body tt true 1%Z _
           [Users.Insert (Some "bob"%string) (Some "Bob"%string)
              (Some "hash:pw"%string) None;
            Users.DeleteWhereId (Some 2%Z)]
           (Body.mk (VStr "alice") VUndef (VStr "s3cret") VUndef)
           eq_refl eq_refl eq_refl eq_refl).
Defined.

Lemma login_admin_flag_matches_admin_check_witness :
  @admin_access sample_libraries "2" true
    (Users.apply_all seed_and_alice Users.empty) = false
  /\ @admin_access sample_libraries "1" true
       (Users.apply_all seed_and_alice Users.empty) = true.
Proof.
  split.
  - exact (@login_admin_flag_matches_admin_check sample_libraries
             seed_and_alice
             (Body.mk (VStr "alice") VUndef (VStr "s3cret") VUndef)
             2%Z "alice"%string "Alice"%string false "2"%string
             eq_refl eq_refl).
  - exact (@login_admin_flag_matches_admin_check sample_libraries
             seed_and_alice admin_body
             1%Z "admin"%string "Admin User"%string true "1"%string
             eq_refl eq_refl).
Defined.

Lemma deleting_admin_locks_admin_routes_witness :
  @admin_access sample_libraries "2" true
    (Users.apply_all
       [Users.Insert (Some "bob"%string) (Some "Bob"%string)
          (Some "hash:pw"%string) None]
       (snd (@delete_admin_user sample_libraries "1" "1" true true
               (Users.apply_all seed_and_alice Users.empty))))
  = false.
Proof.
  exact (@deleting_admin_locks_admin_routes sample_libraries
           seed_and_alice "1"%string "1"%string true true _
           [Users.Insert (Some "bob"%string) (Some "Bob"%string)
              (Some "hash:pw"%string) None]
           "2"%string true eq_refl eq_refl eq_refl).
Defined.

Lemma registering_admin_name_grants_admin_access_witness :
  @admin_access sample_libraries "3" true
    (snd (@post_register sample_libraries
            (Body.mk (VStr "admin") (VStr "Mallory") (VStr "pw") (VStr "pw"))
            tt true
            (Users.apply_all (seed_and_alice ++ [Users.DeleteWhereId (Some 1%Z)])
               Users.empty)))
  = true.
Proof.
  exact (@registering_admin_name_grants_admin_access sample_libraries
           (seed_and_alice ++ [Users.DeleteWhereId (Some 1%Z)])
           (Body.mk (VStr "admin") (VStr "Mallory") (VStr "pw") (VStr "pw"))
           tt true 3%Z _ "3"%string eq_refl eq_refl eq_refl).
Defined.

Lemma deleted_account_cannot_log_in_witness :
  @post_login sample_libraries
    (Body.mk (VStr "alice") VUndef (VStr "s3cret") VUndef) true
    (snd (@delete_admin_user sample_libraries "1" "2" true true
            (Users.apply_all seed_and_alice Users.empty)))
  = Failure 401 "User not found".
Proof.
  exact (@deleted_account_cannot_log_in sample_libraries seed_and_alice
           (Body.mk (VStr "alice") VUndef (VStr "s3cret") VUndef)
           2%Z "alice"%string "Alice"%string false "1"%string "2"%string
           true true _ eq_refl eq_refl eq_refl).
Defined.

Lemma seeding_creates_default_admin_once_witness :
  Users.rows
    (@initializeDatabase sample_libraries tt true
       (Users.apply_all seed_and_alice Users.empty))
  = Users.rows (Users.apply_all seed_and_alice Users.empty)
  /\ @post_login sample_libraries admin_body true
       (@initializeDatabase sample_libraries tt true
          (Users.apply_all [] Users.empty))
     = LoginSuccessful (Users.next_id (Users.apply_all [] Users.empty))
         "admin" "Admin User" true.
Proof.
  split.
  - exact (proj1 (proj1 (@seeding_creates_default_admin_once sample_libraries
                           sample_compare_hash seed_and_alice tt true
                           admin_body "hash:12345"%string)
                    eq_refl)).
  - exact (proj2 (@seeding_creates_default_admin_once sample_libraries
                    sample_compare_hash [] tt true admin_body
                    "hash:12345"%string)
             eq_refl eq_refl eq_refl eq_refl).
Defined.
